(** * Project SOLARIS bot: clearance levels, XP and role synchronisation

    A shallow embedding of [project_solaris_bot.py]: the SQLite table
    [users], the helpers [get_user_data], [update_user_data] and
    [promote_user], and the three listeners [on_member_join],
    [on_raw_reaction_add] and [on_message].

    Python integers are unbounded, so they are [Z].  The table is a finite
    map from [user_id] to the pair [(xp, clearance_level)].  The Discord
    objects the code reads (roles, channels, members, guilds) are records
    holding the attributes the code uses.  Everything the code does to the
    outside (a committed write, a role call, a message) is appended to a
    trace, in the order the code does it.

    The exceptions modelled are the ones the code itself can cause: an
    attribute read on [None] (a guild or a member the client does not know),
    a list index out of range and a missing dict key.  The calls to the
    platform and to SQLite are taken to succeed, and stored integers to stay
    within the 64 bits of an SQLite [INTEGER]. *)

From stdpp Require Import gmap strings list fin_maps pretty.

Local Open Scope string_scope.
Local Open Scope Z_scope.

(** ** Configuration tables *)

Definition CLEARANCE_ROLES : gmap Z string :=
  list_to_map
    [ (0, "CL-0: Recruit");
      (1, "CL-1: Initiate");
      (2, "CL-2: Asset");
      (3, "CL-3: Agent");
      (4, "CL-4: Field Agent");
      (5, "CL-5: Senior Agent");
      (6, "CL-6: Special Operative");
      (7, "CL-7: Handler");
      (8, "CL-8: Intelligence Officer");
      (9, "CL-9: Shadow Commander");
      (10, "CL-10: Control") ].

Definition XP_THRESHOLDS : list Z :=
  [0; 100; 300; 600; 1000; 1500; 2100; 2800; 3600; 4500; 5500].

(** ** Python values *)

Inductive Exn := AttributeError | IndexError | KeyError.

(** [l[i]] on a Python list: a negative index counts from the end, an index
    outside [-len, len) raises [IndexError] (here [None]). *)
Definition py_index {A} (l : list A) (i : Z) : option A :=
  let n := Z.of_nat (length l) in
  if 0 <=? i then l !! Z.to_nat i
  else if - n <=? i then l !! Z.to_nat (n + i)
  else None.

(** [range(lo, hi)] *)
Definition range (lo hi : Z) : list Z :=
  map (fun k => lo + Z.of_nat k) (seq 0 (Z.to_nat (hi - lo))).

(** Truth value of the result of [dict.get] on a dict of strings: [None] and
    the empty string are false. *)
Definition truthy (o : option string) : bool :=
  match o with
  | Some s => negb (String.eqb s "")
  | None => false
  end.

(** ** Discord objects *)

Record Role := { role_id : Z; role_name : string }.
Record Channel := { channel_id : Z; channel_name : string }.
Record Member := { member_id : Z; member_bot : bool; member_roles : list Role }.
Record Guild :=
  { guild_roles : list Role;
    guild_text_channels : list Channel;
    guild_members : gmap Z Member }.

(** Discord objects compare by id. *)
Definition role_eqb (a b : Role) : bool := role_id a =? role_id b.

(** [role in member.roles] *)
Definition role_in (r : Role) (rs : list Role) : bool := existsb (role_eqb r) rs.

(** [discord.utils.get(xs, name=n)]: the first element whose name is [n]. *)
Definition utils_get {A} (name_of : A -> string) (xs : list A) (n : string) : option A :=
  find (fun x => String.eqb (name_of x) n) xs.

(** ** Effects *)

Inductive Text :=
| WelcomeDirective
| VerificationPrompt
| PromotionAlert (mention : Z) (new_role_name : option string).

Inductive Effect :=
| Commit (user_id xp level : Z)
| RemoveRoles (member : Z) (r : Role)
| AddRoles (member : Z) (r : Role)
| ChannelSend (c : Channel) (t : Text)
| MemberSend (member : Z) (t : Text)
| AddReaction (message_id : Z) (emoji : string)
| ProcessCommands (author : Z).

(** The state the program owns: the table [users], the attribute
    [verification_message_id] of the onboarding cog, and the trace. *)
Record World :=
  { db : gmap Z (Z * Z);
    verification_message_id : option Z;
    trace : list Effect }.

(** ** A state and exception monad *)

Inductive Outcome (A : Type) :=
| Done (a : A)
| Raised (e : Exn).
Arguments Done {A} a.
Arguments Raised {A} e.

Definition M (A : Type) : Type := World -> Outcome A * World.

Definition ret {A} (a : A) : M A := fun w => (Done a, w).

Definition bind {A B} (k : A -> M B) (m : M A) : M B :=
  fun w =>
    match m w with
    | (Done a, w') => k a w'
    | (Raised e, w') => (Raised e, w')
    end.

Definition raise {A} (e : Exn) : M A := fun w => (Raised e, w).

(** stdpp's notations [x ← m; k] and [m;; k] for this monad. *)
#[global] Instance M_ret : MRet M := @ret.
#[global] Instance M_bind : MBind M := @bind.

Definition emit (e : Effect) : M unit :=
  fun w =>
    (Done tt,
     {| db := db w;
        verification_message_id := verification_message_id w;
        trace := trace w ++ [e] |}).

(** Attribute access on a value that may be [None]. *)
Definition attr {A B} (o : option A) (f : A -> B) : M B :=
  match o with
  | Some a => ret (f a)
  | None => raise AttributeError
  end.

(** [for x in xs: body(x)] *)
Fixpoint for_each {A} (xs : list A) (body : A -> M unit) : M unit :=
  match xs with
  | [] => ret tt
  | x :: rest => body x;; for_each rest body
  end.

Definition when (b : bool) (m : M unit) : M unit := if b then m else ret tt.

(** ** Helper functions of the source *)

(** [cursor.fetchone() or (0, 0)].  The ids and values handled are taken to
    be SQLite integers (signed, 64 bits); for one outside that range
    [sqlite3] raises [OverflowError], which is not modelled. *)
Definition get_user_data (user_id : Z) : M (Z * Z) :=
  fun w => (Done (default (0, 0) (db w !! user_id)), w).

(** [INSERT OR REPLACE] followed by [conn.commit()], for SQLite integers
    (see [get_user_data]). *)
Definition update_user_data (user_id xp level : Z) : M unit :=
  fun w =>
    (Done tt,
     {| db := <[user_id := (xp, level)]> (db w);
        verification_message_id := verification_message_id w;
        trace := trace w ++ [Commit user_id xp level] |}).

Definition promote_user (member : option Member) (new_level : Z)
    (guild : option Guild) : M unit :=
  (* Remove lower clearance roles *)
  for_each (range 0 new_level) (fun level =>
    let name := CLEARANCE_ROLES !! level in
    when (truthy name) (
      roles ← attr guild guild_roles;
      let role := utils_get role_name roles (default "" name) in
      match role with
      | None => ret tt
      | Some r =>
          held ← attr member member_roles;
          when (role_in r held) (
            uid ← attr member member_id;
            emit (RemoveRoles uid r))
      end));;
  (* Add new role *)
  let new_role_name := CLEARANCE_ROLES !! new_level in
  when (truthy new_role_name) (
    roles ← attr guild guild_roles;
    match utils_get role_name roles (default "" new_role_name) with
    | None => ret tt
    | Some r => uid ← attr member member_id; emit (AddRoles uid r)
    end);;
  (* Announce promotion *)
  channels ← attr guild guild_text_channels;
  match utils_get channel_name channels "announcements" with
  | None => ret tt
  | Some c =>
      uid ← attr member member_id;
      emit (ChannelSend c (PromotionAlert uid new_role_name))
  end.

(** [d[k]] on a dict: a missing key raises [KeyError]. *)
Definition dict_index (d : gmap Z string) (k : Z) : M string :=
  match d !! k with
  | Some v => ret v
  | None => raise KeyError
  end.

(** [l[i]] on a list, raising [IndexError]. *)
Definition list_index (l : list Z) (i : Z) : M Z :=
  match py_index l i with
  | Some v => ret v
  | None => raise IndexError
  end.

(** ** Onboarding and verification *)

Definition read_verification_message_id : M (option Z) :=
  fun w => (Done (verification_message_id w), w).

Definition write_verification_message_id (v : option Z) : M unit :=
  fun w =>
    (Done tt,
     {| db := db w; verification_message_id := v; trace := trace w |}).

(** The reaction the verification message asks for. *)
Definition CHECK_MARK : string := "✅".

(** A member joins.  [join_dm_open] says whether the direct message goes
    through ([discord.Forbidden] is caught otherwise); [join_message_id] is
    the id the platform gives the verification message if it is sent. *)
Record JoinEvent :=
  { join_member : Member;
    join_guild : Guild;
    join_dm_open : bool;
    join_message_id : Z }.

(** [not self.verification_message_id]: [None] and [0] are false values. *)
Definition not_set (v : option Z) : bool :=
  match v with
  | None => true
  | Some i => i =? 0
  end.

Definition on_member_join (ev : JoinEvent) : M unit :=
  let member := join_member ev in
  let guild := join_guild ev in
  (* Assign CL-0: Recruit role *)
  name ← dict_index CLEARANCE_ROLES 0;
  match utils_get role_name (guild_roles guild) name with
  | Some recruit_role => emit (AddRoles (member_id member) recruit_role)
  | None => ret tt
  end;;
  (* Update DB *)
  update_user_data (member_id member) 0 0;;
  (* DM welcome message *)
  when (join_dm_open ev) (emit (MemberSend (member_id member) WelcomeDirective));;
  (* Send verification message if not already sent *)
  match utils_get channel_name (guild_text_channels guild) "verification" with
  | Some verification_channel =>
      v ← read_verification_message_id;
      when (not_set v) (
        emit (ChannelSend verification_channel VerificationPrompt);;
        emit (AddReaction (join_message_id ev) CHECK_MARK);;
        write_verification_message_id (Some (join_message_id ev)))
  | None => ret tt
  end.

(** The raw reaction payload, and the guild cache of the client that
    [self.bot.get_guild] reads. *)
Record Payload :=
  { payload_message_id : Z;
    payload_emoji : string;
    payload_guild_id : option Z;
    payload_user_id : Z }.

Record Bot := { bot_guilds : gmap Z Guild }.

Definition get_guild (b : Bot) (guild_id : option Z) : option Guild :=
  match guild_id with
  | Some g => bot_guilds b !! g
  | None => None
  end.

(** [member and member.bot] *)
Definition is_bot (member : option Member) : bool :=
  match member with
  | Some m => member_bot m
  | None => false
  end.

Definition on_raw_reaction_add (self_bot : Bot) (payload : Payload) : M unit :=
  v ← read_verification_message_id;
  if negb (bool_decide (Some (payload_message_id payload) = v)) then ret tt
  else if negb (String.eqb (payload_emoji payload) CHECK_MARK) then ret tt
  else
    let guild := get_guild self_bot (payload_guild_id payload) in
    members ← attr guild guild_members;
    let member := members !! payload_user_id payload in
    if is_bot member then ret tt
    else
      (* Promote to CL-1 if currently CL-0 *)
      '(_, current_level) ← get_user_data (payload_user_id payload);
      when (current_level =? 0) (
        update_user_data (payload_user_id payload) 0 1;;
        promote_user member 1 guild).

(** ** Leveling *)

Record Message := { message_author : Member; message_guild : option Guild }.

Definition on_message (message : Message) : M unit :=
  let author := message_author message in
  if member_bot author then ret tt
  else
    (* Add XP *)
    '(xp, level) ← get_user_data (member_id author);
    let xp := xp + 1 in
    update_user_data (member_id author) xp level;;
    (* Check for promotion *)
    when (level <? 10) (
      next_threshold ← list_index XP_THRESHOLDS (level + 1);
      when (xp >=? next_threshold) (
        let new_level := level + 1 in
        update_user_data (member_id author) xp new_level;;
        promote_user (Some author) new_level (message_guild message)));;
    (* Process commands if any *)
    emit (ProcessCommands (member_id author)).

(** ** The event loop

    discord.py runs one listener per event; an exception inside a listener
    is logged and the client goes on, so what the listener did before the
    exception stays done.

    [run] handles the events one after another.  Every listener reads and
    writes the table without an [await] in between, so for the table this
    is what happens in any schedule.  It is not so for the cog:
    [on_member_join] awaits between testing [verification_message_id] and
    setting it, and two joins that overlap there are outside [run]. *)

Inductive Event :=
| MemberJoin (ev : JoinEvent)
| RawReactionAdd (self_bot : Bot) (payload : Payload)
| MessageCreate (message : Message).

Definition handle (ev : Event) : M unit :=
  match ev with
  | MemberJoin j => on_member_join j
  | RawReactionAdd b p => on_raw_reaction_add b p
  | MessageCreate m => on_message m
  end.

Definition step (w : World) (ev : Event) : World := (handle ev w).2.

Definition run (evs : list Event) (w : World) : World := foldl step w evs.

Definition initial : World :=
  {| db := ∅; verification_message_id := None; trace := [] |}.

(** ** What a computation emits *)

Definition add_trace (es : list Effect) (w : World) : World :=
  {| db := db w;
     verification_message_id := verification_message_id w;
     trace := trace w ++ es |}.

(** The effects a computation appends to the trace when run from [w]. *)
Definition emitted {A} (m : M A) (w : World) : list Effect :=
  drop (length (trace w)) (trace (m w).2).

(** The stored record of a member, as [get_user_data] reads it. *)
Definition record (w : World) (user_id : Z) : Z * Z :=
  default (0, 0) (db w !! user_id).

(** The role calls in a list of effects. *)
Definition removed_roles (es : list Effect) : list Role :=
  flat_map (fun e => match e with RemoveRoles _ r => [r] | _ => [] end) es.

Definition added_roles (es : list Effect) : list Role :=
  flat_map (fun e => match e with AddRoles _ r => [r] | _ => [] end) es.

Definition announcements (es : list Effect) : list Text :=
  flat_map (fun e => match e with ChannelSend _ t => [t] | _ => [] end) es.

(** The records committed, in order. *)
Definition commits (es : list Effect) : list (Z * Z * Z) :=
  flat_map (fun e => match e with Commit u x l => [(u, x, l)] | _ => [] end) es.

(** What the platform does to a member's role list on the role calls:
    [remove_roles] drops the role, [add_roles] of a role already held
    changes nothing. *)
Definition apply_role_call (roles : list Role) (e : Effect) : list Role :=
  match e with
  | RemoveRoles _ r => filter (fun x => negb (role_eqb r x)) roles
  | AddRoles _ r => if role_in r roles then roles else roles ++ [r]
  | _ => roles
  end.

Definition apply_role_calls (es : list Effect) (roles : list Role) : list Role :=
  foldl apply_role_call roles es.

Definition with_roles (m : Member) (roles : list Role) : Member :=
  {| member_id := member_id m; member_bot := member_bot m; member_roles := roles |}.

(** ** The level invariant *)

Definition MAX_LEVEL : Z := 10.

(** [threshold L] for a level of the table. *)
Definition threshold (L : Z) : Z := nth (Z.to_nat L) XP_THRESHOLDS 0.

(** [level == max{L : points >= threshold(L)}] *)
Definition level_invariant (points level : Z) : Prop :=
  0 <= level <= MAX_LEVEL /\
  threshold level <= points /\
  forall L, 0 <= L <= MAX_LEVEL -> threshold L <= points -> L <= level.

(** The same level, computed: scan the table from the top. *)
Fixpoint highest_from (L : Z) (descending : list Z) (points : Z) : Z :=
  match descending with
  | [] => 0
  | t :: rest => if t <=? points then L else highest_from (L - 1) rest points
  end.

Definition highest_level_met (points : Z) : Z :=
  highest_from MAX_LEVEL (rev XP_THRESHOLDS) points.

(** The role the guild has for a level: what [promote_user] looks up. *)
Definition role_for_level (g : Guild) (level : Z) : option Role :=
  match CLEARANCE_ROLES !! level with
  | Some name => utils_get role_name (guild_roles g) name
  | None => None
  end.

(** ** Summaries used in the proofs *)

(** A computation that leaves the table and the cog alone and emits only
    effects satisfying [P]. *)
Definition only_emits {A} (P : Effect -> Prop) (m : M A) : Prop :=
  forall w, exists es, (m w).2 = add_trace es w /\ Forall P es.

(** The effects [promote_user] can have. *)
Definition role_or_send (e : Effect) : Prop :=
  match e with
  | RemoveRoles _ _ | AddRoles _ _ | ChannelSend _ _ => True
  | _ => False
  end.

(** The calls [promote_user] makes for a member and a guild that are there. *)
Definition removal_at (m : Member) (g : Guild) (level : Z) : list Effect :=
  match role_for_level g level with
  | Some r =>
      if role_in r (member_roles m) then [RemoveRoles (member_id m) r] else []
  | None => []
  end.

Definition addition_at (m : Member) (g : Guild) (level : Z) : list Effect :=
  match role_for_level g level with
  | Some r => [AddRoles (member_id m) r]
  | None => []
  end.

Definition announcement_at (m : Member) (g : Guild) (level : Z) : list Effect :=
  match utils_get channel_name (guild_text_channels g) "announcements" with
  | Some c =>
      [ChannelSend c (PromotionAlert (member_id m) (CLEARANCE_ROLES !! level))]
  | None => []
  end.

Definition promote_effects (m : Member) (new_level : Z) (g : Guild) : list Effect :=
  (flat_map (removal_at m g) (range 0 new_level)
   ++ addition_at m g new_level
   ++ announcement_at m g new_level)%list.

(** The promotion check of [on_message], on the new total [xp] and the
    stored [level]. *)
Definition level_after (xp level : Z) : Z :=
  if level <? 10 then
    match py_index XP_THRESHOLDS (level + 1) with
    | Some next_threshold => if xp >=? next_threshold then level + 1 else level
    | None => level
    end
  else level.

(** Every effect but a commit. *)
Definition role_send_or_commands (e : Effect) : Prop :=
  match e with
  | Commit _ _ _ => False
  | _ => True
  end.


(** The integers SQLite stores: signed, 64 bits. *)
Definition sqlite_integer (z : Z) : Prop := - 2 ^ 63 <= z < 2 ^ 63.

(** An event caused by a bot account: a message whose author is a bot, or a
    reaction whose member, looked up in the guild of the payload, is a bot. *)
Inductive from_bot : Event -> Prop :=
| message_from_bot (msg : Message) :
    member_bot (message_author msg) = true ->
    from_bot (MessageCreate msg)
| reaction_from_bot (b : Bot) (p : Payload) (g : Guild) (m : Member) :
    get_guild b (payload_guild_id p) = Some g ->
    guild_members g !! payload_user_id p = Some m ->
    member_bot m = true ->
    from_bot (RawReactionAdd b p).

(** ** Sample data

    A small guild with the roles of the first four levels, the two channels
    the code looks for, a member and a bot account. *)

Definition role_of (level : Z) (name : string) : Role :=
  {| role_id := 100 + level; role_name := name |}.

Definition recruit : Role := role_of 0 "CL-0: Recruit".
Definition initiate : Role := role_of 1 "CL-1: Initiate".
Definition asset : Role := role_of 2 "CL-2: Asset".
Definition agent : Role := role_of 3 "CL-3: Agent".

Definition announcements_channel : Channel :=
  {| channel_id := 7; channel_name := "announcements" |}.
Definition verification_channel : Channel :=
  {| channel_id := 8; channel_name := "verification" |}.

Definition alice : Member :=
  {| member_id := 42; member_bot := false; member_roles := [recruit] |}.
Definition robot : Member :=
  {| member_id := 99; member_bot := true; member_roles := [] |}.

Definition solaris : Guild :=
  {| guild_roles := [recruit; initiate; asset; agent];
     guild_text_channels := [announcements_channel; verification_channel];
     guild_members := {[ 42 := alice; 99 := robot ]} |}.

(** The same guild after the roles of levels 0 and 1 were deleted. *)
Definition solaris_without_low_roles : Guild :=
  {| guild_roles := [asset; agent];
     guild_text_channels := [announcements_channel; verification_channel];
     guild_members := {[ 42 := alice; 99 := robot ]} |}.

Definition client : Bot := {| bot_guilds := {[ 1 := solaris ]} |}.

Definition message_of (m : Member) : Message :=
  {| message_author := m; message_guild := Some solaris |}.

(** A world where the member [42] has the record [(xp, level)]. *)
Definition world_with (xp level : Z) : World :=
  {| db := {[ 42 := (xp, level) ]};
     verification_message_id := Some 500;
     trace := [] |}.

Definition check_mark_on (message_id user_id : Z) : Payload :=
  {| payload_message_id := message_id;
     payload_emoji := CHECK_MARK;
     payload_guild_id := Some 1;
     payload_user_id := user_id |}.

Definition alice_joins : JoinEvent :=
  {| join_member := alice;
     join_guild := solaris;
     join_dm_open := true;
     join_message_id := 500 |}.

(** ** The [/dossier] command

    The command reads the record of a user and answers with an embed.  The
    answer of [interaction.response.send_message] is the value returned. *)

Record Account := { account_id : Z; account_display_name : string }.

Record Interaction :=
  { interaction_user : Account;
    interaction_guild : option Guild }.

Inductive Colour := DarkBlue.

Record Field := { field_name : string; field_value : string; field_inline : bool }.

Record Embed :=
  { embed_title : string;
    embed_color : Colour;
    embed_fields : list Field }.

Record Response := { response_embed : Embed; response_ephemeral : bool }.

(** [embed.add_field(name=..., value=..., inline=...)]; the value is turned
    into a string by the caller, as [str(value)]. *)
Definition add_field (e : Embed) (name value : string) (inline : bool) : Embed :=
  {| embed_title := embed_title e;
     embed_color := embed_color e;
     embed_fields :=
       (embed_fields e
        ++ [{| field_name := name; field_value := value; field_inline := inline |}])%list |}.

Definition dossier (interaction : Interaction) (user : option Account) : M Response :=
  let user :=
    match user with
    | None => interaction_user interaction
    | Some u => u
    end in
  '(xp, level) ← get_user_data (account_id user);
  let role_name := default "Unknown" (CLEARANCE_ROLES !! level) in
  let embed :=
    {| embed_title := "Dossier: " +:+ account_display_name user;
       embed_color := DarkBlue;
       embed_fields := [] |} in
  let embed := add_field embed "Clearance Level" ("CL-" +:+ pretty level) true in
  let embed := add_field embed "Rank" role_name true in
  let embed := add_field embed "XP" (pretty xp) true in
  (* Supports DMs (ephemeral if in server) *)
  ret {| response_embed := embed;
         response_ephemeral := bool_decide (is_Some (interaction_guild interaction)) |}.

(** The value of the field of an embed with a given name. *)
Definition field_of (r : Response) (name : string) : option string :=
  field_value <$> find (fun f => String.eqb (field_name f) name)
                       (embed_fields (response_embed r)).

(** ** Further summaries used in the proofs *)

(** The member an event is about. *)
Definition actor (ev : Event) : Z :=
  match ev with
  | MemberJoin j => member_id (join_member j)
  | RawReactionAdd _ p => payload_user_id p
  | MessageCreate m => member_id (message_author m)
  end.

(** The records the listeners produce: the level is the one of the level
    invariant, or the member was verified before reaching the threshold of
    level 1. *)
Definition settled (points level : Z) : Prop :=
  level_invariant points level \/ (level = 1 /\ 0 <= points < 100).

(** The channels the verification prompt was sent to. *)
Definition verification_prompts (es : list Effect) : list Channel :=
  flat_map (fun e => match e with
                     | ChannelSend c VerificationPrompt => [c]
                     | _ => []
                     end) es.

(** The number of messages of a list that count for a member: those it
    wrote from an account that is not a bot. *)
Definition messages_by (user_id : Z) (msgs : list Message) : Z :=
  Z.of_nat (length (filter (fun m => negb (member_bot (message_author m))
                                     && bool_decide (member_id (message_author m) = user_id))
                           msgs)).

(** What [promote_user] and the command dispatch can emit. *)
Definition promotion_or_commands (e : Effect) : Prop :=
  match e with
  | RemoveRoles _ _ | AddRoles _ _ | ProcessCommands _ => True
  | ChannelSend _ (PromotionAlert _ _) => True
  | _ => False
  end.

(** Every effect but the verification prompt. *)
Definition never_prompts (e : Effect) : Prop :=
  match e with
  | ChannelSend _ VerificationPrompt => False
  | _ => True
  end.

(** A computation that leaves the cog alone and appends only effects
    satisfying [P] to the trace (it may write to the table). *)
Definition keeps_cog {A} (P : Effect -> Prop) (m : M A) : Prop :=
  forall w,
    verification_message_id (m w).2 = verification_message_id w /\
    exists es, trace (m w).2 = (trace w ++ es)%list /\ Forall P es.

(** The promotions announced for a member: the role names of its alerts. *)
Definition promotions_announced (user_id : Z) (es : list Effect) : list (option string) :=
  flat_map (fun e => match e with
                     | ChannelSend _ (PromotionAlert u name) =>
                         if u =? user_id then [name] else []
                     | _ => []
                     end) es.

(** A message written in a guild that has the announcements channel. *)
Definition announced_in_guild (msg : Message) : Prop :=
  exists g c, message_guild msg = Some g /\
              utils_get channel_name (guild_text_channels g) "announcements" = Some c.

(** A second member, for the samples. *)
Definition bob : Member :=
  {| member_id := 43; member_bot := false; member_roles := [] |}.

(** An account for the samples. *)
Definition alice_account : Account :=
  {| account_id := 42; account_display_name := "Alice" |}.

Definition in_solaris (a : Account) : Interaction :=
  {| interaction_user := a; interaction_guild := Some solaris |}.

(** A member the guild cache does not have. *)
Definition stranger_reacts : Payload := check_mark_on 500 77.

(** A message sent to the bot directly. *)
Definition direct_message_of (m : Member) : Message :=
  {| message_author := m; message_guild := None |}.

(** * Properties *)

Local Close Scope string_scope.

(** ** The threshold table *)

Lemma level_cases (L : Z) :
  0 <= L <= MAX_LEVEL ->
  L = 0 \/ L = 1 \/ L = 2 \/ L = 3 \/ L = 4 \/ L = 5 \/
  L = 6 \/ L = 7 \/ L = 8 \/ L = 9 \/ L = 10.
Proof. unfold MAX_LEVEL. lia. Qed.

(** Case analysis on a level of the table. *)
Ltac by_level L H :=
  let C := fresh "C" in
  pose proof (level_cases L H) as C;
  repeat (destruct C as [C | C]; [subst L | ]); [ .. | subst L].

Lemma thresholds_increase (L L' : Z) :
  0 <= L -> L < L' -> L' <= MAX_LEVEL -> threshold L < threshold L'.
Proof.
  intros H0 Hlt Hmax.
  assert (HL : 0 <= L <= MAX_LEVEL) by lia.
  assert (HL' : 0 <= L' <= MAX_LEVEL) by lia.
  by_level L HL; by_level L' HL'; vm_compute; try reflexivity; lia.
Qed.

Lemma threshold_zero : threshold 0 = 0.
Proof. reflexivity. Qed.

Lemma level_invariant_unique (points l1 l2 : Z) :
  level_invariant points l1 -> level_invariant points l2 -> l1 = l2.
Proof.
  intros (R1 & T1 & M1) (R2 & T2 & M2).
  pose proof (M1 l2 R2 T2). pose proof (M2 l1 R1 T1). lia.
Qed.

Lemma highest_level_met_spec (points : Z) :
  0 <= points -> level_invariant points (highest_level_met points).
Proof.
  intros Hp. unfold highest_level_met, MAX_LEVEL. simpl.
  repeat (match goal with
          | |- context [?t <=? points] =>
              destruct (Z.leb_spec t points); cbv iota
          end);
    (split; [unfold MAX_LEVEL; lia | split; [unfold threshold; simpl; lia | ]]);
    intros L HL HT; by_level L HL; unfold threshold in HT; simpl in HT; lia.
Qed.

Lemma level_invariant_iff (points level : Z) :
  level_invariant points level <->
  0 <= points /\ level = highest_level_met points.
Proof.
  split.
  - intros H. assert (Hp : 0 <= points).
    { destruct H as (R & T & _). pose proof (thresholds_increase 0 level).
      rewrite threshold_zero in *. destruct (decide (level = 0)) as [-> | ?].
      - rewrite threshold_zero in T. lia.
      - lia. }
    split; [exact Hp | ].
    eapply level_invariant_unique; [exact H | by apply highest_level_met_spec].
  - intros [Hp ->]. by apply highest_level_met_spec.
Qed.

(** ** Running the monad *)

Lemma add_trace_nil (w : World) : add_trace [] w = w.
Proof. destruct w. unfold add_trace. simpl. by rewrite app_nil_r. Qed.

Lemma add_trace_app (es1 es2 : list Effect) (w : World) :
  add_trace es2 (add_trace es1 w) = add_trace (es1 ++ es2) w.
Proof. unfold add_trace. simpl. by rewrite app_assoc. Qed.

Lemma emitted_of_trace {A} (m : M A) (w : World) (es : list Effect) :
  trace (m w).2 = trace w ++ es -> emitted m w = es.
Proof. intros H. unfold emitted. by rewrite H, drop_app_length. Qed.

Lemma emitted_add_trace {A} (m : M A) (w : World) (es : list Effect) :
  (m w).2 = add_trace es w -> emitted m w = es.
Proof. intros H. apply emitted_of_trace. by rewrite H. Qed.

Lemma emit_run (e : Effect) (w : World) : emit e w = (Done tt, add_trace [e] w).
Proof. reflexivity. Qed.

Lemma bind_run {A B} (m : M A) (k : A -> M B) (w : World) :
  (m ≫= k) w =
  match m w with
  | (Done a, w') => k a w'
  | (Raised e, w') => (Raised e, w')
  end.
Proof. reflexivity. Qed.

Section OnlyEmits.
Context (P : Effect -> Prop).

Lemma only_emits_ret {A} (a : A) : only_emits P (ret a).
Proof. intros w. exists []. split; [by rewrite add_trace_nil | constructor]. Qed.

Lemma only_emits_raise {A} (e : Exn) : only_emits P (@raise A e).
Proof. intros w. exists []. split; [by rewrite add_trace_nil | constructor]. Qed.

Lemma only_emits_emit (e : Effect) : P e -> only_emits P (emit e).
Proof. intros He w. exists [e]. split; [reflexivity | by repeat constructor]. Qed.

Lemma only_emits_attr {A B} (o : option A) (f : A -> B) : only_emits P (attr o f).
Proof. destruct o; [apply only_emits_ret | apply only_emits_raise]. Qed.

Lemma only_emits_bind {A B} (m : M A) (k : A -> M B) :
  only_emits P m -> (forall a, only_emits P (k a)) -> only_emits P (m ≫= k).
Proof.
  intros Hm Hk w. rewrite bind_run.
  destruct (Hm w) as (es1 & E1 & F1).
  destruct (m w) as [[a | e] w1]; simpl in E1; subst w1.
  - destruct (Hk a (add_trace es1 w)) as (es2 & E2 & F2).
    exists (es1 ++ es2). rewrite E2, add_trace_app.
    split; [reflexivity | by apply Forall_app].
  - by exists es1.
Qed.

Lemma only_emits_when (b : bool) (m : M unit) :
  only_emits P m -> only_emits P (when b m).
Proof. destruct b; [done | intros _; apply only_emits_ret]. Qed.

Lemma only_emits_for_each {A} (xs : list A) (body : A -> M unit) :
  (forall x, only_emits P (body x)) -> only_emits P (for_each xs body).
Proof.
  intros Hb. induction xs as [ | x xs IH]; simpl.
  - apply only_emits_ret.
  - apply only_emits_bind; [apply Hb | intros _; exact IH].
Qed.
End OnlyEmits.

(** ** [promote_user] *)

(** Whatever it is given, [promote_user] touches neither the table nor the
    cog: it only makes role calls and sends the announcement. *)
Lemma promote_user_only_emits (member : option Member) (new_level : Z)
    (guild : option Guild) :
  only_emits role_or_send (promote_user member new_level guild).
Proof.
  unfold promote_user.
  repeat first
    [ apply only_emits_bind; [ | intros ? ]
    | apply only_emits_for_each; intros ?
    | apply only_emits_when
    | apply only_emits_attr
    | apply only_emits_ret
    | apply only_emits_emit; exact I
    | match goal with |- only_emits _ (match ?o with _ => _ end) => destruct o end ].
Qed.

Lemma clearance_role_cases (level : Z) (name : string) :
  CLEARANCE_ROLES !! level = Some name ->
  0 <= level <= MAX_LEVEL /\ name <> ""%string.
Proof.
  intros H. apply elem_of_list_to_map_2 in H.
  repeat (apply elem_of_cons in H as [H | H]; [inversion H; subst; split; [unfold MAX_LEVEL; lia | discriminate] | ]).
  by apply elem_of_nil in H.
Qed.

Lemma clearance_role_truthy (level : Z) (name : string) :
  CLEARANCE_ROLES !! level = Some name -> truthy (Some name) = true.
Proof.
  intros E. apply clearance_role_cases in E as [_ Hne]. simpl.
  destruct (String.eqb_spec name ""%string); [done | reflexivity].
Qed.

Lemma for_each_run {A} (xs : list A) (body : A -> M unit) (f : A -> list Effect) (w : World) :
  (forall x w', body x w' = (Done tt, add_trace (f x) w')) ->
  for_each xs body w = (Done tt, add_trace (flat_map f xs) w).
Proof.
  intros Hb. revert w. induction xs as [ | x xs IH]; intros w; simpl.
  - unfold ret. by rewrite add_trace_nil.
  - rewrite bind_run, Hb, IH, add_trace_app. reflexivity.
Qed.

Lemma promote_user_run (m : Member) (new_level : Z) (g : Guild) (w : World) :
  promote_user (Some m) new_level (Some g) w =
  (Done tt, add_trace (promote_effects m new_level g) w).
Proof.
  unfold promote_user, promote_effects.
  rewrite bind_run.
  rewrite (for_each_run _ _ (removal_at m g)).
  - rewrite bind_run.
    assert (Hadd : forall w',
      when (truthy (CLEARANCE_ROLES !! new_level))
        (roles ← attr (Some g) guild_roles;
         match utils_get role_name roles (default ""%string (CLEARANCE_ROLES !! new_level)) with
         | Some r => uid ← attr (Some m) member_id; emit (AddRoles uid r)
         | None => ret tt
         end) w' = (Done tt, add_trace (addition_at m g new_level) w')).
    { intros w'. unfold addition_at, role_for_level.
      destruct (CLEARANCE_ROLES !! new_level) as [name | ] eqn:E.
      - rewrite (clearance_role_truthy _ _ E). simpl. rewrite bind_run. simpl.
        destruct (utils_get role_name (guild_roles g) name); simpl.
        + rewrite bind_run. simpl. by rewrite emit_run.
        + unfold ret. by rewrite add_trace_nil.
      - unfold ret. by rewrite add_trace_nil. }
    rewrite Hadd. rewrite bind_run. simpl.
    unfold announcement_at.
    destruct (utils_get channel_name (guild_text_channels g) "announcements"%string); simpl.
    + rewrite bind_run. simpl. rewrite emit_run, !add_trace_app.
      reflexivity.
    + unfold ret. rewrite app_nil_r, !add_trace_app. reflexivity.
  - intros level w'. unfold removal_at, role_for_level.
    destruct (CLEARANCE_ROLES !! level) as [name | ] eqn:E.
    + rewrite (clearance_role_truthy _ _ E). simpl. rewrite bind_run. simpl.
      destruct (utils_get role_name (guild_roles g) name) as [r | ]; simpl.
      * rewrite bind_run. simpl. destruct (role_in r (member_roles m)); simpl.
        -- rewrite bind_run. simpl. by rewrite emit_run.
        -- unfold ret. by rewrite add_trace_nil.
      * unfold ret. by rewrite add_trace_nil.
    + unfold ret. by rewrite add_trace_nil.
Qed.

(** ** [on_message] *)

Lemma role_or_send_weaken (es : list Effect) :
  Forall role_or_send es -> Forall role_send_or_commands es.
Proof. intros H. eapply Forall_impl; [exact H | by intros []]. Qed.

Lemma on_message_bot (msg : Message) (w : World) :
  member_bot (message_author msg) = true -> on_message msg w = (Done tt, w).
Proof. intros H. unfold on_message. by rewrite H. Qed.

(** One message of a member that is not a bot: the record gets one more
    point and the level of [level_after]; the first commit carries the old
    level, a second commit follows when the level changes; nothing else is
    committed. *)
Lemma on_message_run (msg : Message) (w : World) :
  member_bot (message_author msg) = false ->
  let uid := member_id (message_author msg) in
  let xp := (record w uid).1 + 1 in
  let level := (record w uid).2 in
  let level' := level_after xp level in
  exists es,
    Forall role_send_or_commands es /\
    (on_message msg w).2 =
      {| db := <[uid := (xp, level')]> (db w);
         verification_message_id := verification_message_id w;
         trace := trace w
                  ++ Commit uid xp level
                  :: (if level' =? level then [] else [Commit uid xp level'])
                  ++ es |}.
Proof.
  intros Hbot. unfold on_message, record. rewrite Hbot.
  rewrite bind_run. unfold get_user_data. simpl.
  destruct (default (0, 0) (db w !! member_id (message_author msg))) as [xp0 level].
  simpl. rewrite bind_run. unfold update_user_data at 1. simpl.
  unfold level_after.
  destruct (level <? 10) eqn:Hlt; simpl.
  - rewrite !bind_run. unfold list_index.
    destruct (py_index XP_THRESHOLDS (level + 1)) as [next_threshold | ]; simpl.
    + destruct (xp0 + 1 >=? next_threshold) eqn:Hge; simpl.
      * rewrite bind_run. unfold update_user_data at 1. simpl.
        rewrite insert_insert_eq.
        replace (level + 1 =? level) with false by lia.
        match goal with
        | |- context [promote_user ?a ?b ?c ?w0] =>
            destruct (promote_user_only_emits a b c w0) as (es & E & F);
            destruct (promote_user a b c w0) as [[[] | e] w1]
        end; simpl in E; subst w1; simpl.
        -- exists (es ++ [ProcessCommands (member_id (message_author msg))]).
           split.
           ++ apply Forall_app. split; [by apply role_or_send_weaken | by repeat constructor].
           ++ unfold add_trace. simpl. f_equal. by rewrite <- !app_assoc.
        -- exists es. split; [by apply role_or_send_weaken | ].
           unfold add_trace. simpl. f_equal. by rewrite <- !app_assoc.
      * rewrite Z.eqb_refl.
        exists [ProcessCommands (member_id (message_author msg))].
        split; [by repeat constructor | ]. by rewrite <- app_assoc.
    + rewrite Z.eqb_refl. exists []. split; [constructor | reflexivity].
  - rewrite Z.eqb_refl.
    exists [ProcessCommands (member_id (message_author msg))].
    split; [by repeat constructor | ]. by rewrite <- app_assoc.
Qed.

Lemma on_message_emitted (msg : Message) (w : World) :
  trace (on_message msg w).2 = trace w ++ emitted (on_message msg) w.
Proof.
  unfold emitted.
  destruct (member_bot (message_author msg)) eqn:Hbot.
  - rewrite on_message_bot by done. simpl. by rewrite drop_all, app_nil_r.
  - destruct (on_message_run msg w Hbot) as (es & _ & E). rewrite E. simpl.
    by rewrite drop_app_length.
Qed.

Lemma on_message_record (msg : Message) (w : World) (user_id : Z) :
  record (on_message msg w).2 user_id =
  if negb (member_bot (message_author msg))
     && bool_decide (user_id = member_id (message_author msg))
  then ((record w user_id).1 + 1,
        level_after ((record w user_id).1 + 1) (record w user_id).2)
  else record w user_id.
Proof.
  destruct (member_bot (message_author msg)) eqn:Hbot; simpl.
  - by rewrite on_message_bot.
  - destruct (on_message_run msg w Hbot) as (es & _ & E). rewrite E.
    unfold record at 1. simpl. case_bool_decide as Hu.
    + subst user_id. by rewrite lookup_insert_eq.
    + by rewrite lookup_insert_ne.
Qed.

Lemma level_after_bounds (xp level : Z) :
  level <= level_after xp level <= level + 1.
Proof.
  unfold level_after. destruct (level <? 10); [ | lia].
  destruct (py_index XP_THRESHOLDS (level + 1)); [ | lia].
  destruct (xp >=? z); lia.
Qed.

Lemma level_after_in_range (xp level : Z) :
  0 <= level <= MAX_LEVEL ->
  level_after xp level =
  if (level <? MAX_LEVEL) && (threshold (level + 1) <=? xp)
  then level + 1 else level.
Proof.
  intros H. unfold level_after. by_level level H; simpl;
    try reflexivity;
    match goal with
    | |- context [xp >=? ?t] => rewrite (Z.geb_leb xp t)
    end; reflexivity.
Qed.

Lemma level_after_invariant (xp level : Z) :
  level_invariant xp level ->
  level_invariant (xp + 1) (level_after (xp + 1) level).
Proof.
  intros (R & T & Hmax). rewrite level_after_in_range by done.
  assert (Hnext : level < MAX_LEVEL -> xp < threshold (level + 1)).
  { intros Hlt. destruct (Z.lt_ge_cases xp (threshold (level + 1))) as [ | Hge]; [done | ].
    specialize (Hmax (level + 1)). lia. }
  destruct (Z.ltb_spec level MAX_LEVEL) as [Hlt | Hge]; simpl.
  - specialize (Hnext Hlt).
    destruct (Z.leb_spec (threshold (level + 1)) (xp + 1)) as [Hle | Hgt].
    + split; [lia | split; [done | ]].
      intros L HL HT.
      destruct (Z.le_gt_cases L (level + 1)) as [ | Hbig]; [done | ].
      pose proof (thresholds_increase (level + 1) L). lia.
    + split; [done | split; [lia | ]].
      intros L HL HT.
      destruct (Z.le_gt_cases L level) as [ | Hbig]; [done | ].
      destruct (decide (L = level + 1)) as [-> | ?]; [lia | ].
      pose proof (thresholds_increase (level + 1) L). lia.
  - split; [done | split; [lia | ]]. intros L HL _. lia.
Qed.

Lemma run_messages_invariant (msgs : list Message) (w : World) (user_id : Z) :
  level_invariant (record w user_id).1 (record w user_id).2 ->
  level_invariant (record (run (MessageCreate <$> msgs) w) user_id).1
                  (record (run (MessageCreate <$> msgs) w) user_id).2.
Proof.
  revert w. induction msgs as [ | msg msgs IH]; intros w Hinv; [exact Hinv | ].
  simpl. apply IH. unfold step. simpl. rewrite on_message_record.
  destruct (negb _ && _); [ | exact Hinv]. simpl.
  by apply level_after_invariant.
Qed.

(** ** The level invariant along the activity path *)

(** C1. Start from a member whose record is the zero one, absent or stored
    as [(0, 0)], and let any sequence of messages (each message is the +1
    delta of the code, by any author) be processed.  After every step, that
    is after each prefix of the sequence, the stored level of the member is
    the largest level whose threshold its stored points reach. *)
Theorem activity_keeps_level_invariant
    (msgs : list Message) (w : World) (user_id : Z) (k : nat) :
  record w user_id = (0, 0) ->
  let w' := run (MessageCreate <$> take k msgs) w in
  level_invariant (record w' user_id).1 (record w' user_id).2 /\
  (record w' user_id).2 = highest_level_met (record w' user_id).1.
Proof.
  intros Hfresh w'.
  assert (Hinv : level_invariant (record w' user_id).1 (record w' user_id).2).
  { apply run_messages_invariant. rewrite Hfresh. simpl.
    apply (highest_level_met_spec 0). lia. }
  split; [exact Hinv | ]. by apply level_invariant_iff in Hinv as [_ ->].
Qed.

Lemma activity_keeps_level_invariant_witness :
  record initial 42 = (0, 0) /\
  let w' := run (MessageCreate <$> take 100 (replicate 150 (message_of alice))) initial in
  level_invariant (record w' 42).1 (record w' 42).2 /\
  (record w' 42).2 = highest_level_met (record w' 42).1.
Proof.
  split; [reflexivity | ].
  apply (activity_keeps_level_invariant (replicate 150 (message_of alice)) initial 42 100).
  reflexivity.
Defined.

(** A hundred messages take a new member to [(100, 1)]; the ninety-ninth
    leaves it at [(99, 0)]. *)
Example hundred_messages :
  record (run (MessageCreate <$> replicate 99 (message_of alice)) initial) 42 = (99, 0) /\
  record (run (MessageCreate <$> replicate 100 (message_of alice)) initial) 42 = (100, 1).
Proof. split; vm_compute; reflexivity. Qed.

(** ** One message, one level *)


(** One message adds one point and promotes by one level exactly when the
    stored level is below [MAX_LEVEL] and the new total reaches the
    threshold of the next level; otherwise the level stays.  If the record
    satisfied the level invariant, the new level is the highest level whose
    threshold the new total reaches. *)
Theorem activity_promotes_one_level (msg : Message) (w : World) :
  let user_id := member_id (message_author msg) in
  let points := (record w user_id).1 in
  let level := (record w user_id).2 in
  let w' := step w (MessageCreate msg) in
  member_bot (message_author msg) = false ->
  0 <= level <= MAX_LEVEL ->
  (record w' user_id).1 = points + 1 /\
  (record w' user_id).2 =
    (if (level <? MAX_LEVEL) && (threshold (level + 1) <=? points + 1)
     then level + 1 else level) /\
  (level_invariant points level ->
   (record w' user_id).2 = highest_level_met (points + 1)).
Proof.
  intros user_id points level w' Hbot Hrange.
  unfold w', step. simpl. rewrite on_message_record, Hbot.
  rewrite bool_decide_eq_true_2 by done. simpl.
  fold user_id points level.
  split; [reflexivity | split; [by apply level_after_in_range | ]].
  intros Hinv. apply level_after_invariant in Hinv.
  by apply level_invariant_iff in Hinv as [_ ->].
Qed.

Lemma activity_promotes_one_level_witness :
  let w := world_with 299 1 in
  let w' := step w (MessageCreate (message_of alice)) in
  member_bot alice = false /\
  0 <= 1 <= MAX_LEVEL /\
  level_invariant 299 1 /\
  (record w' 42).1 = 300 /\
  (record w' 42).2 = 2 /\
  (record w' 42).2 = highest_level_met 300.
Proof.
  assert (Hrange : 0 <= 1 <= MAX_LEVEL) by (unfold MAX_LEVEL; lia).
  assert (Hinv : level_invariant 299 1).
  { apply level_invariant_iff. split; [lia | reflexivity]. }
  destruct (activity_promotes_one_level (message_of alice) (world_with 299 1)
              eq_refl Hrange) as (H1 & H2 & H3).
  split; [reflexivity | split; [exact Hrange | split; [exact Hinv | ]]].
  split; [exact H1 | split; [exact H2 | exact (H3 Hinv)]].
Defined.

(** ** What is committed *)

(** C5, as stated, fails.  The member has [(99, 0)] and sends a message:
    the code commits [(100, 0)] first, a record that violates the level
    invariant, and [(100, 1)] in a second commit. *)
Lemma atomic_write_counterexample :
  let w := world_with 99 0 in
  commits (emitted (on_message (message_of alice)) w) =
    [(42, 100, 0); (42, 100, 1)] /\
  ~ level_invariant 100 0.
Proof.
  split; [vm_compute; reflexivity | ].
  intros (_ & _ & Hmax). specialize (Hmax 1).
  assert (1 <= 0); [ | lia].
  apply Hmax; [unfold MAX_LEVEL; lia | unfold threshold; simpl; lia].
Qed.

(** C5, amended.  A message of a member whose record satisfies the level
    invariant is persisted in one commit when no threshold is crossed, and
    that record satisfies the invariant.  When the threshold of the next
    level is crossed there are two commits: the first stores the new points
    with the old level, which violates the invariant, the second stores the
    new points with the new level, which satisfies it. *)
Theorem activity_commits (msg : Message) (w : World) :
  let user_id := member_id (message_author msg) in
  let points := (record w user_id).1 in
  let level := (record w user_id).2 in
  member_bot (message_author msg) = false ->
  level_invariant points level ->
  if (level <? MAX_LEVEL) && (threshold (level + 1) <=? points + 1)
  then
    commits (emitted (on_message msg) w) =
      [(user_id, points + 1, level); (user_id, points + 1, level + 1)] /\
    ~ level_invariant (points + 1) level /\
    level_invariant (points + 1) (level + 1)
  else
    commits (emitted (on_message msg) w) = [(user_id, points + 1, level)] /\
    level_invariant (points + 1) level.
Proof.
  intros user_id points level Hbot Hinv.
  destruct (on_message_run msg w Hbot) as (es & Hes & E).
  assert (Hcommits : commits es = []).
  { clear E. induction es as [ | e es IH]; [done | ].
    apply Forall_cons in Hes as [He Hes]. simpl. rewrite (IH Hes).
    by destruct e. }
  rewrite (emitted_of_trace _ _ _ (f_equal trace E)). simpl.
  fold user_id points level.
  pose proof (level_after_invariant _ _ Hinv) as Hinv'.
  fold points level in Hinv'.
  rewrite level_after_in_range in * by apply Hinv.
  destruct ((level <? MAX_LEVEL) && (threshold (level + 1) <=? points + 1)) eqn:Hc.
  - replace (level + 1 =? level) with false by lia. simpl.
    rewrite Hcommits. split; [reflexivity | split; [ | exact Hinv']].
    intros Hold. pose proof (level_invariant_unique _ _ _ Hold Hinv'). lia.
  - rewrite Z.eqb_refl. simpl. rewrite Hcommits. done.
Qed.

Lemma activity_commits_witness :
  let w := world_with 299 1 in
  member_bot alice = false /\
  level_invariant 299 1 /\
  commits (emitted (on_message (message_of alice)) w) = [(42, 300, 1); (42, 300, 2)] /\
  ~ level_invariant 300 1 /\
  level_invariant 300 2.
Proof.
  assert (Hinv : level_invariant 299 1).
  { apply level_invariant_iff. split; [lia | reflexivity]. }
  split; [reflexivity | split; [exact Hinv | ]].
  exact (activity_commits (message_of alice) (world_with 299 1) eq_refl Hinv).
Defined.

(** ** At the top level *)

(** C9. A member stored at [MAX_LEVEL] sends a message: the points go up
    by one, the level stays, and the only effects are the single commit and
    the command dispatch; no role call is made and nothing is announced. *)
Theorem max_level_activity (msg : Message) (w : World) :
  let user_id := member_id (message_author msg) in
  let points := (record w user_id).1 in
  let w' := step w (MessageCreate msg) in
  member_bot (message_author msg) = false ->
  (record w user_id).2 = MAX_LEVEL ->
  record w' user_id = (points + 1, MAX_LEVEL) /\
  points < (record w' user_id).1 /\
  emitted (on_message msg) w =
    [Commit user_id (points + 1) MAX_LEVEL; ProcessCommands user_id] /\
  removed_roles (emitted (on_message msg) w) = [] /\
  added_roles (emitted (on_message msg) w) = [] /\
  announcements (emitted (on_message msg) w) = [].
Proof.
  intros user_id points w' Hbot Hmax.
  assert (E : emitted (on_message msg) w =
              [Commit user_id (points + 1) MAX_LEVEL; ProcessCommands user_id]).
  { apply emitted_of_trace. unfold on_message. rewrite Hbot, bind_run.
    unfold get_user_data. simpl. unfold points, user_id in *. unfold record in *.
    destruct (default (0, 0) (db w !! member_id (message_author msg))) as [xp level].
    simpl in *. subst level. simpl. by rewrite <- app_assoc. }
  split.
  - unfold w', step. simpl. rewrite on_message_record, Hbot.
    rewrite bool_decide_eq_true_2 by done. simpl. fold user_id points.
    rewrite Hmax. reflexivity.
  - split.
    + unfold w', step. simpl. rewrite on_message_record, Hbot.
      rewrite bool_decide_eq_true_2 by done. simpl. fold user_id points. lia.
    + rewrite E. done.
Qed.

Lemma max_level_activity_witness :
  let w := world_with 6000 10 in
  let w' := step w (MessageCreate (message_of alice)) in
  member_bot alice = false /\
  (record w 42).2 = MAX_LEVEL /\
  record w' 42 = (6001, MAX_LEVEL) /\
  emitted (on_message (message_of alice)) w = [Commit 42 6001 MAX_LEVEL; ProcessCommands 42].
Proof.
  destruct (max_level_activity (message_of alice) (world_with 6000 10) eq_refl eq_refl)
    as (H1 & _ & H2 & _).
  split; [reflexivity | split; [reflexivity | split; [exact H1 | exact H2]]].
Defined.

(** ** [on_raw_reaction_add] and [on_member_join] *)

Lemma reaction_without_promotion (b : Bot) (p : Payload) (w : World) :
  (record w (payload_user_id p)).2 <> 0 ->
  (on_raw_reaction_add b p w).2 = w.
Proof.
  intros Hlevel. unfold on_raw_reaction_add. rewrite bind_run.
  unfold read_verification_message_id. simpl.
  destruct (negb (bool_decide _)); [done | ].
  destruct (negb (String.eqb _ _)); [done | ].
  rewrite bind_run.
  destruct (get_guild b (payload_guild_id p)) as [g | ]; [ | done]. simpl.
  destruct (is_bot _); [done | ].
  rewrite bind_run. unfold get_user_data. simpl.
  unfold record in Hlevel.
  destruct (default (0, 0) (db w !! payload_user_id p)) as [xp level].
  simpl in *. by replace (level =? 0) with false by lia.
Qed.

(** A reaction that passes every check of the handler, for a member stored
    at level 0. *)
Lemma reaction_with_promotion (b : Bot) (p : Payload) (w : World) (g : Guild) :
  verification_message_id w = Some (payload_message_id p) ->
  payload_emoji p = CHECK_MARK ->
  get_guild b (payload_guild_id p) = Some g ->
  is_bot (guild_members g !! payload_user_id p) = false ->
  (record w (payload_user_id p)).2 = 0 ->
  on_raw_reaction_add b p w =
  promote_user (guild_members g !! payload_user_id p) 1 (Some g)
    (update_user_data (payload_user_id p) 0 1 w).2.
Proof.
  intros Hid Hemoji Hguild Hbot Hlevel. unfold on_raw_reaction_add.
  rewrite bind_run. unfold read_verification_message_id. simpl.
  rewrite Hid. case_bool_decide; [ | done]. simpl.
  rewrite Hemoji, String.eqb_refl. simpl.
  rewrite Hguild, bind_run. simpl. rewrite Hbot.
  rewrite bind_run. unfold get_user_data. simpl.
  unfold record in Hlevel.
  destruct (default (0, 0) (db w !! payload_user_id p)) as [xp level].
  simpl in *. subst level. simpl. rewrite bind_run. simpl.
  by rewrite ?Hid.
Qed.

(** Either way, a reaction leaves the world as it was or stores [(0, 1)]
    for a member that was at level 0. *)
Lemma reaction_db (b : Bot) (p : Payload) (w : World) :
  (on_raw_reaction_add b p w).2 = w \/
  ((record w (payload_user_id p)).2 = 0 /\
   db (on_raw_reaction_add b p w).2 = <[payload_user_id p := (0, 1)]> (db w)).
Proof.
  destruct (decide ((record w (payload_user_id p)).2 = 0)) as [Hzero | Hnz];
    [ | left; by apply reaction_without_promotion].
  unfold on_raw_reaction_add. rewrite bind_run.
  unfold read_verification_message_id. simpl.
  destruct (negb (bool_decide _)); [by left | ].
  destruct (negb (String.eqb _ _)); [by left | ].
  rewrite bind_run.
  destruct (get_guild b (payload_guild_id p)) as [g | ]; [ | by left]. simpl.
  destruct (is_bot _); [by left | ].
  right. split; [exact Hzero | ].
  rewrite bind_run. unfold get_user_data. simpl.
  unfold record in Hzero.
  destruct (default (0, 0) (db w !! payload_user_id p)) as [xp level].
  simpl in *. subst level. simpl. rewrite bind_run. simpl.
  match goal with
  | |- context [promote_user ?a ?b ?c ?w0] =>
      destruct (promote_user_only_emits a b c w0) as (es & E & _)
  end.
  rewrite E. reflexivity.
Qed.

Lemma recruit_role_name : CLEARANCE_ROLES !! 0 = Some "CL-0: Recruit"%string.
Proof. reflexivity. Qed.

Lemma on_member_join_record (j : JoinEvent) (w : World) (user_id : Z) :
  record (on_member_join j w).2 user_id =
  if bool_decide (user_id = member_id (join_member j)) then (0, 0)
  else record w user_id.
Proof.
  assert (Hdb : db (on_member_join j w).2 = <[member_id (join_member j) := (0, 0)]> (db w)).
  { unfold on_member_join. rewrite bind_run. unfold dict_index.
    rewrite recruit_role_name. simpl. rewrite bind_run.
    destruct (utils_get role_name (guild_roles (join_guild j)) _); simpl;
      rewrite bind_run; simpl; rewrite bind_run;
      destruct (join_dm_open j); simpl;
      destruct (utils_get channel_name _ _); simpl; try reflexivity;
      rewrite bind_run; simpl;
      match goal with |- context [not_set ?v] => destruct (not_set v) end;
      reflexivity. }
  unfold record. rewrite Hdb. case_bool_decide as Hu.
  - subst user_id. by rewrite lookup_insert_eq.
  - by rewrite lookup_insert_ne.
Qed.

(** ** Monotonicity *)

(** C2, as stated, fails.  A member stored at [(150, 1)] who joins again is
    stored at [(0, 0)]: points and level both decrease.  A member stored at
    [(50, 0)] who verifies is stored at [(0, 1)]: the points decrease. *)
Lemma monotone_record_counterexample :
  (let w := world_with 150 1 in
   let w' := step w (MemberJoin alice_joins) in
   record w 42 = (150, 1) /\ record w' 42 = (0, 0)) /\
  (let w := world_with 50 0 in
   let w' := step w (RawReactionAdd client (check_mark_on 500 42)) in
   record w 42 = (50, 0) /\ record w' 42 = (0, 1)).
Proof. vm_compute. repeat split; reflexivity. Qed.

(** C2, amended.  A message never decreases the stored points or the stored
    level of any member.  A verification reaction never decreases the stored
    level of any member; it leaves a record as it is or stores [(0, 1)].  A
    member join stores [(0, 0)] for the member who joins and leaves the other
    records as they are. *)
Theorem record_monotonicity (w : World) (user_id : Z) :
  (forall msg,
     let w' := step w (MessageCreate msg) in
     (record w user_id).1 <= (record w' user_id).1 /\
     (record w user_id).2 <= (record w' user_id).2) /\
  (forall b p,
     let w' := step w (RawReactionAdd b p) in
     (record w user_id).2 <= (record w' user_id).2 /\
     (record w' user_id = record w user_id \/ record w' user_id = (0, 1))) /\
  (forall j,
     let w' := step w (MemberJoin j) in
     record w' user_id =
       if bool_decide (user_id = member_id (join_member j)) then (0, 0)
       else record w user_id).
Proof.
  split; [ | split].
  - intros msg w'. unfold w', step. simpl. rewrite on_message_record.
    destruct (negb _ && _); simpl; [ | lia].
    pose proof (level_after_bounds ((record w user_id).1 + 1) (record w user_id).2).
    lia.
  - intros b p w'. unfold w', step. simpl.
    destruct (reaction_db b p w) as [-> | [Hzero Hdb]]; [split; [lia | by left] | ].
    assert (Hrec : record (on_raw_reaction_add b p w).2 user_id =
                   default (0, 0) (<[payload_user_id p := (0, 1)]> (db w) !! user_id))
      by (unfold record; by rewrite Hdb).
    rewrite Hrec.
    destruct (decide (user_id = payload_user_id p)) as [-> | Hne].
    + rewrite lookup_insert_eq. simpl. split; [lia | by right].
    + rewrite lookup_insert_ne by congruence. fold (record w user_id).
      split; [lia | by left].
  - intros j w'. unfold w', step. simpl. apply on_member_join_record.
Qed.

Lemma record_monotonicity_witness :
  let w := world_with 99 0 in
  let w' := step w (MessageCreate (message_of alice)) in
  (record w 42).1 <= (record w' 42).1 /\ (record w 42).2 <= (record w' 42).2.
Proof. exact (proj1 (record_monotonicity (world_with 99 0) 42) (message_of alice)). Defined.

(** ** Verification *)

(** C4. Take a reaction that passes the checks of the handler: it is on the
    verification message, it is the check mark, its guild is known and the
    member is not a bot.  If the stored level is 0 the member is promoted to
    level 1: the record becomes [(0, 1)] in one commit and [promote_user]
    runs with level 1.  If the stored level is anything else nothing
    changes.  After it, any further reaction of the same member changes
    nothing, so repeated verifications promote at most once. *)
Theorem verification_promotes_once (b : Bot) (p : Payload) (w : World) (g : Guild) :
  let user_id := payload_user_id p in
  let w' := step w (RawReactionAdd b p) in
  verification_message_id w = Some (payload_message_id p) ->
  payload_emoji p = CHECK_MARK ->
  get_guild b (payload_guild_id p) = Some g ->
  is_bot (guild_members g !! user_id) = false ->
  ((record w user_id).2 = 0 ->
     record w' user_id = (0, 1) /\
     commits (emitted (on_raw_reaction_add b p) w) = [(user_id, 0, 1)] /\
     forall m, guild_members g !! user_id = Some m ->
       emitted (on_raw_reaction_add b p) w = Commit user_id 0 1 :: promote_effects m 1 g) /\
  ((record w user_id).2 <> 0 -> w' = w) /\
  (forall b' p', payload_user_id p' = user_id ->
     step w' (RawReactionAdd b' p') = w').
Proof.
  intros user_id w' Hid Hemoji Hguild Hbot.
  assert (Hafter : (record w' user_id).2 <> 0).
  { unfold w', step. simpl.
    destruct (reaction_db b p w) as [E | [Hzero Hdb]].
    - rewrite E. destruct (decide ((record w user_id).2 = 0)) as [Hzero | ?]; [ | done].
      exfalso. pose proof (reaction_with_promotion b p w g Hid Hemoji Hguild Hbot Hzero) as R.
      rewrite R in E.
      match type of E with
      | (promote_user ?a ?b ?c ?w0).2 = _ =>
          destruct (promote_user_only_emits a b c w0) as (es & E' & _)
      end.
      rewrite E' in E. apply (f_equal trace) in E. simpl in E.
      apply (f_equal length) in E. rewrite !length_app in E. simpl in E. lia.
    - unfold record. rewrite Hdb. fold user_id. by rewrite lookup_insert_eq. }
  split; [ | split].
  - intros Hzero.
    pose proof (reaction_with_promotion b p w g Hid Hemoji Hguild Hbot Hzero) as R.
    fold user_id in R.
    split; [ | split].
    + unfold w', step. simpl.
      destruct (reaction_db b p w) as [E | [_ Hdb]].
      * exfalso. rewrite R in E.
        match type of E with
        | (promote_user ?a ?b ?c ?w0).2 = _ =>
            destruct (promote_user_only_emits a b c w0) as (es & E' & _)
        end.
        rewrite E' in E. apply (f_equal trace) in E. simpl in E.
        apply (f_equal length) in E. rewrite !length_app in E. simpl in E. lia.
      * unfold record. rewrite Hdb. fold user_id. by rewrite lookup_insert_eq.
    + match type of R with
      | _ = promote_user ?a ?b ?c ?w0 =>
          destruct (promote_user_only_emits a b c w0) as (es & E' & F)
      end.
      rewrite (emitted_of_trace _ _ (Commit user_id 0 1 :: es)).
      * simpl. clear E' R. induction es as [ | e es IH]; [done | ].
        apply Forall_cons in F as [He F]. simpl.
        destruct e; try done; simpl; by apply IH.
      * rewrite R, E'. simpl. by rewrite <- app_assoc.
    + intros m Hm. apply emitted_of_trace.
      rewrite R, Hm, promote_user_run. simpl. by rewrite <- app_assoc.
  - intros Hnz. unfold w', step. simpl. by apply reaction_without_promotion.
  - intros b' p' Hsame. unfold step at 1. simpl.
    apply reaction_without_promotion. by rewrite Hsame.
Qed.

Lemma verification_promotes_once_witness :
  let w := world_with 50 0 in
  let p := check_mark_on 500 42 in
  let w' := step w (RawReactionAdd client p) in
  verification_message_id w = Some (payload_message_id p) /\
  payload_emoji p = CHECK_MARK /\
  get_guild client (payload_guild_id p) = Some solaris /\
  is_bot (guild_members solaris !! 42) = false /\
  (record w 42).2 = 0 /\
  record w' 42 = (0, 1) /\
  step w' (RawReactionAdd client p) = w'.
Proof.
  destruct (verification_promotes_once client (check_mark_on 500 42) (world_with 50 0)
              solaris eq_refl eq_refl eq_refl eq_refl) as (H1 & _ & H3).
  do 5 (split; [reflexivity | ]).
  split; [exact (proj1 (H1 eq_refl)) | exact (H3 client (check_mark_on 500 42) eq_refl)].
Defined.

(** ** Bot accounts *)

(** C10. The handler of an event caused by a bot account returns without
    touching anything: the table, the cog state and the trace (so every role
    call and every message) are as before. *)
Theorem bot_events_change_nothing (ev : Event) (w : World) :
  from_bot ev -> handle ev w = (Done tt, w) /\ step w ev = w.
Proof.
  intros Hbot.
  assert (H : handle ev w = (Done tt, w)); [ | split; [done | unfold step; by rewrite H]].
  destruct Hbot as [msg Hbot | b p g m Hguild Hmember Hbot]; simpl.
  - by apply on_message_bot.
  - unfold on_raw_reaction_add. rewrite bind_run.
    unfold read_verification_message_id. simpl.
    destruct (negb (bool_decide _)); [done | ].
    destruct (negb (String.eqb _ _)); [done | ].
    rewrite Hguild, bind_run. simpl. rewrite Hmember. simpl. by rewrite Hbot.
Qed.

Lemma bot_events_change_nothing_witness :
  let w := world_with 99 0 in
  (member_bot robot = true /\ step w (MessageCreate (message_of robot)) = w) /\
  (get_guild client (Some 1) = Some solaris /\
   guild_members solaris !! 99 = Some robot /\
   step w (RawReactionAdd client (check_mark_on 500 99)) = w).
Proof.
  split.
  - split; [reflexivity | ].
    exact (proj2 (bot_events_change_nothing (MessageCreate (message_of robot))
                    (world_with 99 0) (message_from_bot (message_of robot) eq_refl))).
  - split; [reflexivity | split; [reflexivity | ]].
    exact (proj2 (bot_events_change_nothing (RawReactionAdd client (check_mark_on 500 99))
                    (world_with 99 0)
                    (reaction_from_bot client (check_mark_on 500 99) solaris robot
                       eq_refl eq_refl eq_refl))).
Defined.

(** ** The role synchroniser *)

Lemma in_range (level hi : Z) : In level (range 0 hi) <-> 0 <= level < hi.
Proof.
  unfold range. rewrite in_map_iff. split.
  - intros (k & <- & Hk). apply in_seq in Hk. lia.
  - intros H. exists (Z.to_nat level). split; [lia | ]. apply in_seq. lia.
Qed.

Lemma role_for_level_found (g : Guild) (level : Z) (r : Role) :
  role_for_level g level = Some r ->
  CLEARANCE_ROLES !! level = Some (role_name r) /\ In r (guild_roles g).
Proof.
  unfold role_for_level, utils_get.
  destruct (CLEARANCE_ROLES !! level) as [name | ]; [ | done].
  intros H. apply find_some in H as [Hin Hname].
  apply String.eqb_eq in Hname. by subst name.
Qed.

Lemma clearance_roles_injective (l1 l2 : Z) (name : string) :
  CLEARANCE_ROLES !! l1 = Some name -> CLEARANCE_ROLES !! l2 = Some name -> l1 = l2.
Proof.
  intros H1 H2.
  apply elem_of_list_to_map_2 in H1. apply elem_of_list_to_map_2 in H2.
  repeat (apply elem_of_cons in H1 as [H1 | H1]; [inversion H1; subst; clear H1 | ]);
    try (by apply elem_of_nil in H1);
    repeat (apply elem_of_cons in H2 as [H2 | H2]; [by inversion H2 | ]);
    by apply elem_of_nil in H2.
Qed.

(** A role stands for at most one level. *)
Lemma role_for_level_injective (g : Guild) (l1 l2 : Z) (r : Role) :
  role_for_level g l1 = Some r -> role_for_level g l2 = Some r -> l1 = l2.
Proof.
  intros H1 H2.
  apply role_for_level_found in H1 as [H1 _].
  apply role_for_level_found in H2 as [H2 _].
  by eapply clearance_roles_injective.
Qed.

Lemma removed_roles_app (es1 es2 : list Effect) :
  removed_roles (es1 ++ es2) = removed_roles es1 ++ removed_roles es2.
Proof. apply flat_map_app. Qed.

Lemma added_roles_app (es1 es2 : list Effect) :
  added_roles (es1 ++ es2) = added_roles es1 ++ added_roles es2.
Proof. apply flat_map_app. Qed.

Lemma announcements_app (es1 es2 : list Effect) :
  announcements (es1 ++ es2) = announcements es1 ++ announcements es2.
Proof. apply flat_map_app. Qed.

Lemma removal_at_cases (m : Member) (g : Guild) (level : Z) :
  (exists r, role_for_level g level = Some r /\
             role_in r (member_roles m) = true /\
             removal_at m g level = [RemoveRoles (member_id m) r]) \/
  removal_at m g level = [].
Proof.
  unfold removal_at. destruct (role_for_level g level) as [r | ]; [ | by right].
  destruct (role_in r (member_roles m)) eqn:E; [left; by exists r | by right].
Qed.

Lemma removals_only_remove (m : Member) (g : Guild) (levels : list Z) :
  added_roles (flat_map (removal_at m g) levels) = [] /\
  announcements (flat_map (removal_at m g) levels) = [].
Proof.
  induction levels as [ | level levels [IH1 IH2]]; [done | ]. simpl.
  rewrite added_roles_app, announcements_app, IH1, IH2.
  by destruct (removal_at_cases m g level) as [(r & _ & _ & ->) | ->].
Qed.

Lemma in_removals (m : Member) (g : Guild) (levels : list Z) (r : Role) :
  In r (removed_roles (flat_map (removal_at m g) levels)) <->
  role_in r (member_roles m) = true /\
  exists level, In level levels /\ role_for_level g level = Some r.
Proof.
  induction levels as [ | level levels IH]; simpl.
  - split; [done | by intros (_ & ? & [] & _)].
  - rewrite removed_roles_app, in_app_iff, IH. split.
    + intros [H | (Hheld & l & Hl & Hr)].
      * destruct (removal_at_cases m g level) as [(r' & Hr' & Hheld & E) | E];
          rewrite E in H; simpl in H; [ | done].
        destruct H as [<- | []]. split; [done | ]. exists level. by split; [left | ].
      * split; [done | ]. exists l. by split; [right | ].
    + intros (Hheld & l & [<- | Hl] & Hr).
      * left. unfold removal_at. rewrite Hr, Hheld. by left.
      * right. split; [done | ]. by exists l.
Qed.

Lemma addition_at_roles (m : Member) (g : Guild) (level : Z) :
  removed_roles (addition_at m g level) = [] /\
  announcements (addition_at m g level) = [] /\
  added_roles (addition_at m g level) = option_list (role_for_level g level).
Proof. unfold addition_at. by destruct (role_for_level g level). Qed.

Lemma announcement_at_roles (m : Member) (g : Guild) (level : Z) :
  removed_roles (announcement_at m g level) = [] /\
  added_roles (announcement_at m g level) = [] /\
  forall roles, apply_role_calls (announcement_at m g level) roles = roles.
Proof. unfold announcement_at. by destruct (utils_get _ _ _). Qed.

Lemma promote_user_emitted (m : Member) (new_level : Z) (g : Guild) (w : World) :
  emitted (promote_user (Some m) new_level (Some g)) w = promote_effects m new_level g.
Proof. apply emitted_add_trace. by rewrite promote_user_run. Qed.

Lemma promote_effects_removed (m : Member) (new_level : Z) (g : Guild) :
  removed_roles (promote_effects m new_level g) =
  removed_roles (flat_map (removal_at m g) (range 0 new_level)).
Proof.
  unfold promote_effects. rewrite !removed_roles_app.
  destruct (addition_at_roles m g new_level) as (-> & _).
  destruct (announcement_at_roles m g new_level) as (-> & _).
  by rewrite !app_nil_r.
Qed.

Lemma promote_effects_added (m : Member) (new_level : Z) (g : Guild) :
  added_roles (promote_effects m new_level g) = option_list (role_for_level g new_level).
Proof.
  unfold promote_effects. rewrite !added_roles_app.
  destruct (removals_only_remove m g (range 0 new_level)) as (-> & _).
  destruct (addition_at_roles m g new_level) as (_ & _ & ->).
  destruct (announcement_at_roles m g new_level) as (_ & -> & _).
  by rewrite app_nil_r.
Qed.

(** C7. The roles [promote_user] removes are exactly the roles the member
    holds that are the guild's role for some level below the target.  A role
    that is the guild's role for the target level or for a level above it is
    never removed. *)
Theorem removal_set_exact (m : Member) (g : Guild) (target : Z) (w : World) (r : Role) :
  let es := emitted (promote_user (Some m) target (Some g)) w in
  (In r (removed_roles es) <->
   role_in r (member_roles m) = true /\
   exists level, 0 <= level < target /\ role_for_level g level = Some r) /\
  (forall level, target <= level -> role_for_level g level = Some r ->
   ~ In r (removed_roles es)).
Proof.
  intros es. unfold es. rewrite promote_user_emitted, promote_effects_removed.
  assert (Hiff : In r (removed_roles (flat_map (removal_at m g) (range 0 target))) <->
                 role_in r (member_roles m) = true /\
                 exists level, 0 <= level < target /\ role_for_level g level = Some r).
  { rewrite in_removals. split; intros (Hheld & level & Hl & Hr);
      (split; [done | exists level; split; [by apply in_range | done]]). }
  split; [exact Hiff | ].
  intros level Hge Hr Hin. apply Hiff in Hin as (_ & level' & Hlt & Hr').
  pose proof (role_for_level_injective g level level' r Hr Hr'). lia.
Qed.

Lemma removal_set_exact_witness :
  let holder := with_roles alice [recruit; initiate; agent] in
  let es := emitted (promote_user (Some holder) 2 (Some solaris)) initial in
  removed_roles es = [recruit; initiate] /\
  role_for_level solaris 3 = Some agent /\
  ~ In agent (removed_roles es).
Proof.
  split; [reflexivity | split; [reflexivity | ]].
  apply (proj2 (removal_set_exact (with_roles alice [recruit; initiate; agent])
                  solaris 2 initial agent) 3); [lia | reflexivity].
Defined.

(** C8. With the member and the guild at hand, [promote_user] finishes
    without an exception whatever roles the guild has.  Every role below the
    target that the guild has and the member holds is removed, the target
    role is added if the guild has it, and the announcement is sent if the
    channel exists; a level whose role the guild lacks contributes nothing. *)
Theorem missing_roles_are_skipped (m : Member) (g : Guild) (target : Z) (w : World) :
  let es := emitted (promote_user (Some m) target (Some g)) w in
  (promote_user (Some m) target (Some g) w).1 = Done tt /\
  (forall level r, 0 <= level < target -> role_for_level g level = Some r ->
     role_in r (member_roles m) = true -> In r (removed_roles es)) /\
  (forall r, In r (removed_roles es) ->
     exists level, 0 <= level < target /\ role_for_level g level = Some r) /\
  added_roles es = option_list (role_for_level g target) /\
  (forall c, utils_get channel_name (guild_text_channels g) "announcements"%string = Some c ->
     In (ChannelSend c (PromotionAlert (member_id m) (CLEARANCE_ROLES !! target))) es).
Proof.
  intros es. split; [by rewrite promote_user_run | ].
  unfold es. rewrite promote_user_emitted, promote_effects_removed, promote_effects_added.
  split; [ | split; [ | split; [done | ]]].
  - intros level r Hl Hr Hheld. apply in_removals.
    split; [done | exists level; split; [by apply in_range | done]].
  - intros r Hin. apply in_removals in Hin as (_ & level & Hl & Hr).
    exists level. split; [by apply in_range | done].
  - intros c Hc. unfold promote_effects, announcement_at. rewrite Hc.
    rewrite !in_app_iff. right. right. by left.
Qed.

Lemma missing_roles_are_skipped_witness :
  let holder := with_roles alice [recruit; initiate; asset] in
  let es := emitted (promote_user (Some holder) 3 (Some solaris_without_low_roles)) initial in
  role_for_level solaris_without_low_roles 0 = None /\
  role_for_level solaris_without_low_roles 1 = None /\
  (promote_user (Some holder) 3 (Some solaris_without_low_roles) initial).1 = Done tt /\
  In asset (removed_roles es) /\
  added_roles es = [agent] /\
  In (ChannelSend announcements_channel (PromotionAlert 42 (CLEARANCE_ROLES !! 3))) es.
Proof.
  destruct (missing_roles_are_skipped (with_roles alice [recruit; initiate; asset])
              solaris_without_low_roles 3 initial) as (H1 & H2 & _ & H4 & H5).
  split; [reflexivity | split; [reflexivity | split; [exact H1 | ]]].
  split; [apply (H2 2 asset); [lia | reflexivity | reflexivity] | ].
  split; [exact H4 | exact (H5 announcements_channel eq_refl)].
Defined.

(** ** Running the synchroniser twice *)

Lemma role_in_app (r : Role) (l1 l2 : list Role) :
  role_in r (l1 ++ l2) = role_in r l1 || role_in r l2.
Proof. apply existsb_app. Qed.

Lemma role_eqb_refl (r : Role) : role_eqb r r = true.
Proof. unfold role_eqb. lia. Qed.

Lemma apply_role_calls_app (es1 es2 : list Effect) (roles : list Role) :
  apply_role_calls (es1 ++ es2) roles = apply_role_calls es2 (apply_role_calls es1 roles).
Proof. unfold apply_role_calls. apply foldl_app. Qed.

(** What is left of a role list after the removals of [promote_user]. *)
Lemma in_after_removals (m : Member) (g : Guild) (levels : list Z)
    (roles : list Role) (x : Role) :
  In x (apply_role_calls (flat_map (removal_at m g) levels) roles) <->
  In x roles /\
  forall r, In r (removed_roles (flat_map (removal_at m g) levels)) -> role_eqb r x = false.
Proof.
  revert roles. induction levels as [ | l levels IH]; intros roles; simpl.
  - split; [by intros H; split | by intros [H _]].
  - rewrite apply_role_calls_app, removed_roles_app, IH.
    destruct (removal_at_cases m g l) as [(r0 & _ & _ & ->) | ->]; simpl.
    + rewrite <- list_elem_of_In, list_elem_of_filter, list_elem_of_In. split.
      * intros [[Hkeep Hx] Hrest]. split; [done | ].
        intros r [<- | Hr]; [ | by apply Hrest].
        by destruct (role_eqb r0 x).
      * intros [Hx Hall]. split; [split; [ | done] | ].
        -- rewrite (Hall r0) by by left. done.
        -- intros r Hr. apply Hall. by right.
    + done.
Qed.

(** After the removals, the guild's role for a level that was gone through
    is not held. *)
Lemma not_held_after_removals (m : Member) (g : Guild) (levels : list Z)
    (level : Z) (r : Role) :
  In level levels ->
  role_for_level g level = Some r ->
  role_in r (apply_role_calls (flat_map (removal_at m g) levels) (member_roles m)) = false.
Proof.
  intros Hl Hr.
  destruct (role_in r (apply_role_calls _ _)) eqn:Hin; [ | done].
  apply existsb_exists in Hin as (x & Hx & Hrx).
  apply in_after_removals in Hx as [Hx Hall].
  rewrite (Hall r) in Hrx; [done | ].
  apply in_removals. split; [apply existsb_exists; eauto | by exists level].
Qed.

Lemma distinct_ids (roles : list Role) (x y : Role) :
  NoDup (role_id <$> roles) -> In x roles -> In y roles ->
  role_id x = role_id y -> x = y.
Proof.
  induction roles as [ | a roles IH]; intros Hnd Hx Hy Hid; [done | ].
  rewrite fmap_cons in Hnd. apply NoDup_cons in Hnd as [Hfresh Hnd].
  destruct Hx as [-> | Hx], Hy as [-> | Hy]; [done | | | by apply IH].
  - exfalso. apply Hfresh. rewrite Hid. apply list_elem_of_fmap.
    exists y. by rewrite list_elem_of_In.
  - exfalso. apply Hfresh. rewrite <- Hid. apply list_elem_of_fmap.
    exists x. by rewrite list_elem_of_In.
Qed.

(** The role list of a member after the calls of one [promote_user]. *)
Lemma roles_after_promotion (m : Member) (g : Guild) (target : Z) :
  let kept := apply_role_calls (flat_map (removal_at m g) (range 0 target)) (member_roles m) in
  apply_role_calls (promote_effects m target g) (member_roles m) =
  match role_for_level g target with
  | Some r => if role_in r kept then kept else kept ++ [r]
  | None => kept
  end.
Proof.
  intros kept. unfold promote_effects. rewrite !apply_role_calls_app.
  destruct (announcement_at_roles m g target) as (_ & _ & ->).
  fold kept. unfold addition_at. by destruct (role_for_level g target).
Qed.

(** C6, as stated, fails.  The member holds the level 0 role and is
    synchronised to level 1: the level 0 role is removed and the level 1
    role added.  A second run on the resulting roles removes nothing, but it
    calls [add_roles] for the level 1 role again (and announces again), so
    its delta is not empty. *)
Lemma empty_second_delta_counterexample :
  let es1 := emitted (promote_user (Some alice) 1 (Some solaris)) initial in
  let after := with_roles alice (apply_role_calls es1 (member_roles alice)) in
  let es2 := emitted (promote_user (Some after) 1 (Some solaris)) initial in
  removed_roles es1 = [recruit] /\ added_roles es1 = [initiate] /\
  member_roles after = [initiate] /\
  removed_roles es2 = [] /\ added_roles es2 = [initiate] /\
  added_roles es2 <> [] /\
  announcements es2 = [PromotionAlert 42 (CLEARANCE_ROLES !! 1)].
Proof. vm_compute. repeat split; congruence. Qed.

(** C6, amended.  In a guild whose roles have distinct ids, run
    [promote_user], let the platform apply its role calls, and run it again
    with the same target.  The second run removes nothing.  It repeats the
    [add_roles] call for the target role when the guild has that role; the
    member holds it already, so the second run leaves the role list as it
    is.  It also repeats the announcement. *)
Theorem second_sync_changes_no_role (m : Member) (g : Guild) (target : Z) (w1 w2 : World) :
  let es1 := emitted (promote_user (Some m) target (Some g)) w1 in
  let after := with_roles m (apply_role_calls es1 (member_roles m)) in
  let es2 := emitted (promote_user (Some after) target (Some g)) w2 in
  NoDup (role_id <$> guild_roles g) ->
  removed_roles es2 = [] /\
  added_roles es2 = added_roles es1 /\
  (forall r, In r (added_roles es2) -> role_in r (member_roles after) = true) /\
  apply_role_calls es2 (member_roles after) = member_roles after /\
  announcements es2 = announcements es1.
Proof.
  intros es1 after es2 Hids. unfold es2, after, es1.
  rewrite !promote_user_emitted. simpl.
  set (after_roles := apply_role_calls (promote_effects m target g) (member_roles m)).
  set (m' := with_roles m after_roles).
  pose proof (roles_after_promotion m g target) as Hafter. simpl in Hafter.
  fold after_roles in Hafter.
  set (kept := apply_role_calls (flat_map (removal_at m g) (range 0 target)) (member_roles m)) in *.
  (* no role below the target is held after the first run *)
  assert (Hgone : forall level r, In level (range 0 target) ->
            role_for_level g level = Some r -> role_in r after_roles = false).
  { intros level r Hl Hr.
    assert (Hkept : role_in r kept = false) by by eapply not_held_after_removals.
    rewrite Hafter. destruct (role_for_level g target) as [rt | ] eqn:Ht; [ | done].
    destruct (role_in rt kept); [done | ].
    rewrite role_in_app, Hkept. simpl. rewrite orb_false_r.
    destruct (role_eqb r rt) eqn:Heq; [ | done]. exfalso.
    apply Z.eqb_eq in Heq.
    assert (r = rt).
    { apply (distinct_ids (guild_roles g)); [done | | | done].
      - by apply role_for_level_found in Hr as [_ ?].
      - by apply role_for_level_found in Ht as [_ ?]. }
    subst rt. pose proof (role_for_level_injective g level target r Hr Ht).
    apply in_range in Hl. lia. }
  (* the target role is held after the first run *)
  assert (Hheld : forall r, role_for_level g target = Some r -> role_in r after_roles = true).
  { intros r Hr. rewrite Hafter, Hr. destruct (role_in r kept) eqn:E; [done | ].
    rewrite role_in_app. simpl. by rewrite role_eqb_refl, orb_true_r. }
  assert (Hno_removal : flat_map (removal_at m' g) (range 0 target) = []).
  { assert (Hall : forall levels, (forall l, In l levels -> In l (range 0 target)) ->
              flat_map (removal_at m' g) levels = []).
    { induction levels as [ | l levels IH]; intros Hsub; [done | ]. simpl.
      rewrite IH by (intros ? ?; apply Hsub; by right).
      unfold removal_at. destruct (role_for_level g l) as [r | ] eqn:Hr; [ | done].
      simpl. by rewrite (Hgone l r (Hsub l (or_introl eq_refl)) Hr). }
    by apply Hall. }
  assert (Hes2 : promote_effects m' target g =
                 addition_at m g target ++ announcement_at m g target).
  { unfold promote_effects. by rewrite Hno_removal. }
  rewrite Hes2, !removed_roles_app, !added_roles_app, !announcements_app,
    apply_role_calls_app.
  destruct (addition_at_roles m g target) as (-> & -> & Hadd).
  destruct (announcement_at_roles m g target) as (-> & -> & ->).
  rewrite promote_effects_added. unfold promote_effects.
  rewrite !announcements_app.
  destruct (removals_only_remove m g (range 0 target)) as (_ & ->).
  destruct (addition_at_roles m g target) as (_ & -> & _).
  rewrite Hadd, !app_nil_r. simpl.
  split; [done | split; [done | split; [ | split; [ | done]]]].
  - intros r Hr. apply Hheld. by destruct (role_for_level g target) as [rt | ]; [destruct Hr as [<- | []] | ].
  - unfold addition_at. destruct (role_for_level g target) as [rt | ] eqn:Ht; [ | done].
    simpl. by rewrite (Hheld rt).
Qed.

Lemma second_sync_changes_no_role_witness :
  let es1 := emitted (promote_user (Some alice) 1 (Some solaris)) initial in
  let after := with_roles alice (apply_role_calls es1 (member_roles alice)) in
  let es2 := emitted (promote_user (Some after) 1 (Some solaris)) initial in
  NoDup (role_id <$> guild_roles solaris) /\
  removed_roles es2 = [] /\
  added_roles es2 = added_roles es1 /\
  apply_role_calls es2 (member_roles after) = member_roles after.
Proof.
  assert (Hids : NoDup (role_id <$> guild_roles solaris)).
  { vm_compute. repeat (apply NoDup_cons; split; [ | ]); try apply NoDup_nil_2;
      rewrite ?list_elem_of_In; simpl; intuition congruence. }
  destruct (second_sync_changes_no_role alice solaris 1 initial initial Hids)
    as (H1 & H2 & _ & H4 & _).
  split; [exact Hids | split; [exact H1 | split; [exact H2 | exact H4]]].
Defined.

(** * Further properties of the code *)

(** ** The table *)

(** ** Each event changes one row at most *)

Lemma on_member_join_db (j : JoinEvent) (w : World) :
  db (on_member_join j w).2 = <[member_id (join_member j) := (0, 0)]> (db w).
Proof.
  unfold on_member_join. rewrite bind_run. unfold dict_index.
  rewrite recruit_role_name. simpl. rewrite bind_run.
  destruct (utils_get role_name (guild_roles (join_guild j)) _); simpl;
    rewrite bind_run; simpl; rewrite bind_run;
    destruct (join_dm_open j); simpl;
    destruct (utils_get channel_name _ _); simpl; try reflexivity;
    rewrite bind_run; simpl;
    match goal with |- context [not_set ?v] => destruct (not_set v) end;
    reflexivity.
Qed.

Lemma on_message_db (msg : Message) (w : World) :
  db (on_message msg w).2 = db w \/
  exists row, db (on_message msg w).2 = <[member_id (message_author msg) := row]> (db w).
Proof.
  destruct (member_bot (message_author msg)) eqn:Hbot.
  - left. by rewrite on_message_bot.
  - right. destruct (on_message_run msg w Hbot) as (es & _ & E). rewrite E. simpl. eauto.
Qed.

(** An event leaves the row of every member but the one it is about as it
    is: present with the same values, or absent. *)
Theorem events_touch_one_row (ev : Event) (w : World) (user_id : Z) :
  user_id <> actor ev ->
  db (step w ev) !! user_id = db w !! user_id.
Proof.
  intros Hne. unfold step. destruct ev as [j | b p | msg]; simpl in *.
  - rewrite on_member_join_db. by rewrite lookup_insert_ne.
  - destruct (reaction_db b p w) as [-> | [_ ->]]; [done | by rewrite lookup_insert_ne].
  - destruct (on_message_db msg w) as [-> | [row ->]]; [done | by rewrite lookup_insert_ne].
Qed.

Lemma events_touch_one_row_witness :
  let w := world_with 99 0 in
  let w' := step w (MessageCreate (message_of bob)) in
  42 <> actor (MessageCreate (message_of bob)) /\
  db w' !! 43 = Some (1, 0) /\
  db w' !! 42 = Some (99, 0).
Proof.
  assert (Hne : 42 <> actor (MessageCreate (message_of bob))) by (simpl; lia).
  split; [exact Hne | split; [reflexivity | ]].
  by rewrite (events_touch_one_row (MessageCreate (message_of bob)) (world_with 99 0) 42 Hne).
Defined.

(** ** The records the listeners produce *)

Lemma settled_zero : settled 0 0.
Proof. left. apply (highest_level_met_spec 0). lia. Qed.

Lemma settled_verified : settled 0 1.
Proof. right. lia. Qed.

Lemma settled_after_message (points level : Z) :
  settled points level -> settled (points + 1) (level_after (points + 1) level).
Proof.
  intros [Hinv | [-> Hp]].
  - left. by apply level_after_invariant.
  - assert (E : level_after (points + 1) 1 = 1).
    { rewrite level_after_in_range by (unfold MAX_LEVEL; lia).
      unfold MAX_LEVEL, threshold. simpl.
      destruct (Z.leb_spec 300 (points + 1)); [lia | done]. }
    rewrite E. destruct (decide (points + 1 < 100)) as [Hlt | Hge].
    + right. lia.
    + left. assert (points + 1 = 100) as -> by lia.
      apply level_invariant_iff. split; [lia | reflexivity].
Qed.

Lemma settled_bounds (points level : Z) :
  settled points level ->
  0 <= points /\ 0 <= level <= MAX_LEVEL /\ highest_level_met points <= level.
Proof.
  intros [Hinv | [-> Hp]].
  - pose proof Hinv as (R & _). apply level_invariant_iff in Hinv as [Hp ->]. lia.
  - split; [lia | split; [unfold MAX_LEVEL; lia | ]].
    assert (Hinv : level_invariant points 0).
    { split; [unfold MAX_LEVEL; lia | split; [rewrite threshold_zero; lia | ]].
      intros L HL HT. destruct (decide (L <= 0)) as [ | Hpos]; [done | ].
      pose proof (thresholds_increase 1 L).
      assert (threshold 1 = 100) by reflexivity.
      destruct (decide (L = 1)) as [-> | ]; lia. }
    apply level_invariant_iff in Hinv as [_ <-]. lia.
Qed.

Lemma step_settled (ev : Event) (w : World) :
  (forall u, settled (record w u).1 (record w u).2) ->
  forall u, settled (record (step w ev) u).1 (record (step w ev) u).2.
Proof.
  intros Hall u. unfold step. destruct ev as [j | b p | msg]; cbn [handle].
  - rewrite on_member_join_record. case_bool_decide; [apply settled_zero | apply Hall].
  - destruct (reaction_db b p w) as [-> | [_ Hdb]]; [apply Hall | ].
    unfold record. rewrite Hdb.
    destruct (decide (u = payload_user_id p)) as [-> | Hne].
    + rewrite lookup_insert_eq. apply settled_verified.
    + rewrite lookup_insert_ne by congruence. apply Hall.
  - rewrite on_message_record. destruct (negb _ && _); [ | apply Hall].
    simpl. apply settled_after_message, Hall.
Qed.

Lemma run_settled (evs : list Event) (w : World) :
  (forall u, settled (record w u).1 (record w u).2) ->
  forall u, settled (record (run evs w) u).1 (record (run evs w) u).2.
Proof.
  revert w. induction evs as [ | ev evs IH]; intros w Hall; [exact Hall | ].
  simpl. apply IH. by apply step_settled.
Qed.

Lemma initial_settled (u : Z) : settled (record initial u).1 (record initial u).2.
Proof. unfold record, initial. simpl. rewrite lookup_empty. apply settled_zero. Qed.

(** Whatever events arrive, in whatever order, the rows stay well formed:
    if every record is one the listeners produce (the level of the level
    invariant, or level 1 with fewer than 100 points after a verification),
    the same holds afterwards.  So the points are never negative, the level
    stays within [0, MAX_LEVEL], and the level never lags behind the
    points. *)
Theorem records_stay_settled (evs : list Event) (w : World) :
  (forall u, settled (record w u).1 (record w u).2) ->
  forall u,
    let points := (record (run evs w) u).1 in
    let level := (record (run evs w) u).2 in
    settled points level /\
    0 <= points /\ 0 <= level <= MAX_LEVEL /\ highest_level_met points <= level.
Proof.
  intros Hall u points level.
  assert (H : forall u, settled (record (run evs w) u).1 (record (run evs w) u).2).
  { clear u points level. revert w Hall.
    induction evs as [ | ev evs IH]; intros w Hall; [exact Hall | ].
    simpl. apply IH. by apply step_settled. }
  split; [apply H | apply settled_bounds, H].
Qed.

Lemma records_stay_settled_witness :
  let evs := [MemberJoin alice_joins;
              MessageCreate (message_of alice);
              RawReactionAdd client (check_mark_on 500 42);
              MessageCreate (message_of alice)] in
  (forall u, settled (record initial u).1 (record initial u).2) /\
  record (run evs initial) 42 = (1, 1) /\
  settled 1 1.
Proof.
  assert (H0 : forall u, settled (record initial u).1 (record initial u).2).
  { intros u. unfold record, initial. simpl. rewrite lookup_empty. apply settled_zero. }
  split; [exact H0 | split; [reflexivity | ]].
  exact (proj1 (records_stay_settled
                  [MemberJoin alice_joins;
                   MessageCreate (message_of alice);
                   RawReactionAdd client (check_mark_on 500 42);
                   MessageCreate (message_of alice)] initial H0 42)).
Defined.

(** ** Points count messages *)

Lemma messages_by_cons (user_id : Z) (msg : Message) (msgs : list Message) :
  messages_by user_id (msg :: msgs) =
  (if negb (member_bot (message_author msg))
      && bool_decide (member_id (message_author msg) = user_id)
   then 1 else 0) + messages_by user_id msgs.
Proof.
  unfold messages_by. rewrite filter_cons.
  destruct (negb _ && _) eqn:E.
  - rewrite decide_True by done. simpl length. lia.
  - rewrite decide_False by (by intros []). lia.
Qed.

Lemma run_messages_points (msgs : list Message) (w : World) (user_id : Z) :
  (record (run (MessageCreate <$> msgs) w) user_id).1 =
  (record w user_id).1 + messages_by user_id msgs.
Proof.
  revert w. induction msgs as [ | msg msgs IH]; intros w.
  - unfold messages_by. simpl. lia.
  - simpl. rewrite IH, messages_by_cons. unfold step. simpl.
    rewrite on_message_record.
    rewrite (bool_decide_ext (user_id = member_id (message_author msg))
                             (member_id (message_author msg) = user_id)) by done.
    destruct (negb _ && _); simpl; lia.
Qed.

(** From a zero record, after any sequence of messages a member has one
    point for each message it wrote from an account that is not a bot, and
    the highest level whose threshold that number reaches.  Messages of
    other members and of bots do not count. *)
Theorem points_count_messages (msgs : list Message) (w : World) (user_id : Z) :
  record w user_id = (0, 0) ->
  record (run (MessageCreate <$> msgs) w) user_id =
  (messages_by user_id msgs, highest_level_met (messages_by user_id msgs)).
Proof.
  intros Hzero.
  pose proof (run_messages_points msgs w user_id) as Hp.
  rewrite Hzero in Hp. simpl in Hp.
  assert (Hinv : level_invariant (record (run (MessageCreate <$> msgs) w) user_id).1
                                 (record (run (MessageCreate <$> msgs) w) user_id).2).
  { apply run_messages_invariant. rewrite Hzero. simpl.
    apply (highest_level_met_spec 0). lia. }
  apply level_invariant_iff in Hinv as [_ Hl].
  destruct (record (run (MessageCreate <$> msgs) w) user_id) as [xp level].
  simpl in *. by subst.
Qed.

Lemma points_count_messages_witness :
  let msgs := replicate 100 (message_of alice) ++ [message_of robot; message_of bob] in
  record initial 42 = (0, 0) /\
  messages_by 42 msgs = 100 /\
  record (run (MessageCreate <$> msgs) initial) 42 = (100, 1).
Proof.
  split; [reflexivity | split; [reflexivity | ]].
  exact (points_count_messages
           (replicate 100 (message_of alice) ++ [message_of robot; message_of bob])
           initial 42 eq_refl).
Defined.

(** ** Exceptions *)

Lemma range_from_zero (hi : Z) :
  0 < hi -> exists rest, range 0 hi = 0 :: rest.
Proof.
  intros H. unfold range.
  destruct (Z.to_nat (hi - 0)) as [ | n] eqn:E; [lia | ].
  simpl. eauto.
Qed.

Lemma promote_user_no_guild (member : option Member) (new_level : Z) (w : World) :
  promote_user member new_level None w = (Raised AttributeError, w).
Proof.
  unfold promote_user. rewrite bind_run.
  destruct (Z.lt_ge_cases 0 new_level) as [Hpos | Hle].
  - destruct (range_from_zero new_level Hpos) as (rest & ->). simpl.
    rewrite bind_run, recruit_role_name. simpl. by rewrite ?bind_run.
  - unfold range. replace (Z.to_nat (new_level - 0)) with 0%nat by lia. simpl.
    rewrite ?bind_run.
    destruct (truthy (CLEARANCE_ROLES !! new_level)); simpl; by rewrite ?bind_run.
Qed.

(** Without a guild, [promote_user] raises [AttributeError] on its first
    read of the guild, whatever the member and the target level are, before
    any role call or message: the world is as it was. *)
Theorem promote_user_without_guild (member : option Member) (new_level : Z) (w : World) :
  (promote_user member new_level None w).1 = Raised AttributeError /\
  (promote_user member new_level None w).2 = w /\
  emitted (promote_user member new_level None) w = [].
Proof.
  rewrite promote_user_no_guild. split; [done | split; [done | ]].
  apply emitted_of_trace. rewrite promote_user_no_guild. simpl. by rewrite app_nil_r.
Qed.

Lemma py_index_thresholds (i : Z) :
  is_Some (py_index XP_THRESHOLDS i) <-> -11 <= i < 11.
Proof.
  unfold py_index. simpl length.
  destruct (Z.leb_spec 0 i).
  - rewrite lookup_lt_is_Some. simpl length. lia.
  - destruct (Z.leb_spec (- Z.of_nat 11) i).
    + rewrite lookup_lt_is_Some. simpl length. lia.
    + split; [by intros [? ?] | lia].
Qed.

(** A message in a guild, from an account that is not a bot, leaving out
    what SQLite cannot store. *)
Lemma on_message_in_guild_run (msg : Message) (w : World) (g : Guild) :
  let user_id := member_id (message_author msg) in
  let points := (record w user_id).1 in
  let level := (record w user_id).2 in
  member_bot (message_author msg) = false ->
  message_guild msg = Some g ->
  if level <? -12
  then (on_message msg w).1 = Raised IndexError /\
       emitted (on_message msg) w = [Commit user_id (points + 1) level]
  else (on_message msg w).1 = Done tt /\
       last (emitted (on_message msg) w) = Some (ProcessCommands user_id).
Proof.
  intros user_id points level Hbot Hguild.
  unfold points, level, user_id, record, emitted, on_message.
  rewrite Hbot, bind_run. unfold get_user_data. simpl.
  destruct (default (0, 0) (db w !! member_id (message_author msg))) as [xp lvl].
  simpl. rewrite bind_run. unfold update_user_data at 1. simpl.
  destruct (Z.ltb_spec lvl (-12)) as [Hlow | Hok].
  - replace (lvl <? 10) with true by lia. simpl. rewrite !bind_run.
    unfold list_index.
    destruct (py_index XP_THRESHOLDS (lvl + 1)) as [t | ] eqn:E.
    + assert (Hs : is_Some (py_index XP_THRESHOLDS (lvl + 1))) by eauto.
      apply py_index_thresholds in Hs. lia.
    + simpl. split; [done | by rewrite drop_app_length].
  - destruct (lvl <? 10) eqn:Hlt; simpl.
    + rewrite !bind_run. unfold list_index.
      destruct (py_index XP_THRESHOLDS (lvl + 1)) as [t | ] eqn:E.
      * simpl. destruct (xp + 1 >=? t); simpl.
        -- rewrite bind_run. unfold update_user_data at 1. simpl.
           rewrite Hguild, promote_user_run. simpl.
           split; [done | ].
           rewrite <- !app_assoc, drop_app_length. simpl.
           rewrite app_comm_cons, last_snoc. done.
        -- split; [done | ]. rewrite <- !app_assoc, drop_app_length. done.
      * assert (Hn : ~ is_Some (py_index XP_THRESHOLDS (lvl + 1)))
          by (rewrite E; by intros [? ?]).
        rewrite py_index_thresholds in Hn. lia.
    + split; [done | ]. rewrite <- !app_assoc, drop_app_length. done.
Qed.

(** A message in a guild, from an account that is not a bot, where the id
    of the author, the stored level and the new total are integers SQLite
    stores (otherwise [sqlite3] raises [OverflowError], which is outside
    the model).  The listener raises exactly when the stored level is below
    -12, where [XP_THRESHOLDS[level + 1]] is out of range even counting
    from the end; the exception is [IndexError] and the points are
    committed already.  Otherwise it finishes, and the command dispatch is
    its last effect. *)
Theorem on_message_in_guild (msg : Message) (w : World) (g : Guild) :
  let user_id := member_id (message_author msg) in
  let points := (record w user_id).1 in
  let level := (record w user_id).2 in
  member_bot (message_author msg) = false ->
  message_guild msg = Some g ->
  sqlite_integer user_id ->
  sqlite_integer level ->
  sqlite_integer (points + 1) ->
  if level <? -12
  then (on_message msg w).1 = Raised IndexError /\
       emitted (on_message msg) w = [Commit user_id (points + 1) level]
  else (on_message msg w).1 = Done tt /\
       last (emitted (on_message msg) w) = Some (ProcessCommands user_id).
Proof.
  intros user_id points level Hbot Hguild _ _ _.
  exact (on_message_in_guild_run msg w g Hbot Hguild).
Qed.

Lemma on_message_in_guild_witness :
  let w := world_with 99 0 in
  member_bot alice = false /\
  message_guild (message_of alice) = Some solaris /\
  sqlite_integer 42 /\ sqlite_integer 0 /\ sqlite_integer (99 + 1) /\
  (on_message (message_of alice) w).1 = Done tt /\
  last (emitted (on_message (message_of alice)) w) = Some (ProcessCommands 42).
Proof.
  assert (H42 : sqlite_integer 42) by (unfold sqlite_integer; lia).
  assert (H0 : sqlite_integer 0) by (unfold sqlite_integer; lia).
  assert (H100 : sqlite_integer (99 + 1)) by (unfold sqlite_integer; lia).
  split; [reflexivity | split; [reflexivity | ]].
  split; [exact H42 | split; [exact H0 | split; [exact H100 | ]]].
  exact (on_message_in_guild (message_of alice) (world_with 99 0) solaris
           eq_refl eq_refl H42 H0 H100).
Defined.

(** A message sent directly, outside any guild, from an account that is not
    a bot and whose stored level is in the table.  When it brings a
    promotion, both commits are made, then [promote_user] raises
    [AttributeError] for want of a guild: no role call, no announcement, and
    the commands of the message are not dispatched.  When it brings none,
    the listener finishes as in a guild. *)
Theorem on_message_outside_guild (msg : Message) (w : World) :
  let user_id := member_id (message_author msg) in
  let points := (record w user_id).1 in
  let level := (record w user_id).2 in
  member_bot (message_author msg) = false ->
  message_guild msg = None ->
  0 <= level <= MAX_LEVEL ->
  if (level <? MAX_LEVEL) && (threshold (level + 1) <=? points + 1)
  then (on_message msg w).1 = Raised AttributeError /\
       emitted (on_message msg) w =
         [Commit user_id (points + 1) level; Commit user_id (points + 1) (level + 1)] /\
       record (on_message msg w).2 user_id = (points + 1, level + 1)
  else (on_message msg w).1 = Done tt /\
       emitted (on_message msg) w =
         [Commit user_id (points + 1) level; ProcessCommands user_id] /\
       record (on_message msg w).2 user_id = (points + 1, level).
Proof.
  intros user_id points level Hbot Hguild Hrange.
  pose proof (on_message_record msg w user_id) as Hrec.
  rewrite Hbot in Hrec. unfold user_id in Hrec at 2.
  rewrite bool_decide_eq_true_2 in Hrec by done. simpl in Hrec.
  fold points level in Hrec. rewrite level_after_in_range in Hrec by done.
  rewrite Hrec. clear Hrec.
  pose proof (level_after_in_range (points + 1) level Hrange) as Hafter.
  unfold points, level, user_id, record, emitted, on_message in *.
  rewrite Hbot, bind_run. unfold get_user_data. simpl.
  destruct (default (0, 0) (db w !! member_id (message_author msg))) as [xp lvl].
  simpl in *. rewrite bind_run. unfold update_user_data at 1. simpl.
  unfold level_after in Hafter.
  destruct (lvl <? 10) eqn:Hlt; simpl.
  - unfold MAX_LEVEL in *. rewrite Hlt in *. simpl in *.
    rewrite !bind_run. unfold list_index.
    destruct (py_index XP_THRESHOLDS (lvl + 1)) as [t | ] eqn:E.
    + simpl. destruct (xp + 1 >=? t) eqn:Hge; simpl.
      * destruct (threshold (lvl + 1) <=? xp + 1); [ | lia].
        rewrite bind_run. unfold update_user_data at 1. simpl.
        rewrite Hguild, promote_user_no_guild. simpl.
        split; [done | split; [ | done]].
        by rewrite <- !app_assoc, drop_app_length.
      * destruct (threshold (lvl + 1) <=? xp + 1); [lia | ].
        split; [done | split; [ | done]].
        by rewrite <- !app_assoc, drop_app_length.
    + assert (Hn : ~ is_Some (py_index XP_THRESHOLDS (lvl + 1)))
        by (rewrite E; by intros [? ?]).
      rewrite py_index_thresholds in Hn. lia.
  - unfold MAX_LEVEL in *. rewrite Hlt in *. simpl.
    split; [done | split; [ | done]].
    by rewrite <- !app_assoc, drop_app_length.
Qed.

Lemma on_message_outside_guild_witness :
  let w := world_with 99 0 in
  let msg := direct_message_of alice in
  member_bot alice = false /\
  message_guild msg = None /\
  0 <= 0 <= MAX_LEVEL /\
  (on_message msg w).1 = Raised AttributeError /\
  emitted (on_message msg) w = [Commit 42 100 0; Commit 42 100 1] /\
  record (on_message msg w).2 42 = (100, 1).
Proof.
  assert (Hrange : 0 <= 0 <= MAX_LEVEL) by (unfold MAX_LEVEL; lia).
  split; [reflexivity | split; [reflexivity | split; [exact Hrange | ]]].
  exact (on_message_outside_guild (direct_message_of alice) (world_with 99 0)
           eq_refl eq_refl Hrange).
Defined.

Example on_message_index_error :
  let w := world_with 5 (-13) in
  (on_message (message_of alice) w).1 = Raised IndexError /\
  record (on_message (message_of alice) w).2 42 = (6, -13).
Proof. vm_compute. split; reflexivity. Qed.

Lemma promote_user_no_member (new_level : Z) (g : Guild) (w : World) :
  let busy :=
    existsb (fun l => bool_decide (is_Some (role_for_level g l))) (range 0 new_level)
    || bool_decide (is_Some (role_for_level g new_level))
    || bool_decide (is_Some (utils_get channel_name (guild_text_channels g)
                                       "announcements"%string)) in
  promote_user None new_level (Some g) w =
  (if busy then Raised AttributeError else Done tt, w).
Proof.
  intros busy. unfold busy, promote_user. clear busy.
  rewrite bind_run.
  assert (Hloop : forall levels w',
    for_each levels (fun level =>
      let name := CLEARANCE_ROLES !! level in
      when (truthy name)
        (roles ← attr (Some g) guild_roles;
         let role := utils_get role_name roles (default ""%string name) in
         match role with
         | Some r =>
             held ← attr None member_roles;
             when (role_in r held) (uid ← attr None member_id; emit (RemoveRoles uid r))
         | None => ret tt
         end)) w' =
    (if existsb (fun l => bool_decide (is_Some (role_for_level g l))) levels
     then Raised AttributeError else Done tt, w')).
  { induction levels as [ | l levels IH]; intros w'; [done | ].
    cbn [for_each existsb]. rewrite bind_run.
    destruct (CLEARANCE_ROLES !! l) as [name | ] eqn:E.
    - assert (R : role_for_level g l = utils_get role_name (guild_roles g) name)
        by (unfold role_for_level; by rewrite E).
      rewrite R, (clearance_role_truthy _ _ E). cbn [when default from_option id]. rewrite bind_run.
      cbn [attr ret].
      destruct (utils_get role_name (guild_roles g) name) as [r | ].
      + rewrite bind_run. cbn [attr raise]. by rewrite bool_decide_eq_true_2 by eauto.
      + cbn [ret]. rewrite bool_decide_eq_false_2 by (by intros [? ?]).
        cbn [orb]. apply IH.
    - assert (R : role_for_level g l = None)
        by (unfold role_for_level; by rewrite E).
      rewrite R. cbn [truthy when ret].
      rewrite bool_decide_eq_false_2 by (by intros [? ?]).
      cbn [orb]. apply IH. }
  rewrite Hloop.
  destruct (existsb _ (range 0 new_level)); cbn [orb]; [done | ].
  rewrite bind_run.
  assert (Hchannel :
    (channels ← attr (Some g) guild_text_channels;
     match utils_get channel_name channels "announcements"%string with
     | Some c =>
         uid ← attr None member_id;
         emit (ChannelSend c (PromotionAlert uid (CLEARANCE_ROLES !! new_level)))
     | None => ret tt
     end) w =
    (if bool_decide (is_Some (utils_get channel_name (guild_text_channels g)
                                        "announcements"%string))
     then Raised AttributeError else Done tt, w)).
  { rewrite bind_run. cbn [attr ret].
    destruct (utils_get channel_name (guild_text_channels g) "announcements"%string).
    - rewrite bind_run. cbn [attr raise]. by rewrite bool_decide_eq_true_2 by eauto.
    - cbn [ret]. by rewrite bool_decide_eq_false_2 by (by intros [? ?]). }
  revert Hchannel.
  generalize (bool_decide (is_Some (utils_get channel_name (guild_text_channels g)
                                              "announcements"%string))).
  intros has_channel Hchannel.
  destruct (CLEARANCE_ROLES !! new_level) as [name | ] eqn:E.
  - assert (R : role_for_level g new_level = utils_get role_name (guild_roles g) name)
      by (unfold role_for_level; by rewrite E).
    rewrite R, (clearance_role_truthy _ _ E). cbn [when default from_option id]. rewrite bind_run.
    cbn [attr ret].
    destruct (utils_get role_name (guild_roles g) name) as [r | ].
    + rewrite bind_run. cbn [attr raise]. by rewrite bool_decide_eq_true_2 by eauto.
    + cbn [ret]. rewrite bool_decide_eq_false_2 by (by intros [? ?]).
      cbn [orb]. exact Hchannel.
  - assert (R : role_for_level g new_level = None)
      by (unfold role_for_level; by rewrite E).
    rewrite R. cbn [truthy when ret].
    rewrite bool_decide_eq_false_2 by (by intros [? ?]).
    cbn [orb]. exact Hchannel.
Qed.

(** Without the member, [promote_user] makes no call at all.  It raises
    [AttributeError] at the first thing it would do with the member: when
    the guild has the role of a level below the target, or the role of the
    target, or the announcements channel.  If the guild has none of them it
    finishes, having done nothing. *)
Theorem promote_user_without_member (new_level : Z) (g : Guild) (w : World) :
  let busy :=
    existsb (fun l => bool_decide (is_Some (role_for_level g l))) (range 0 new_level)
    || bool_decide (is_Some (role_for_level g new_level))
    || bool_decide (is_Some (utils_get channel_name (guild_text_channels g)
                                       "announcements"%string)) in
  (promote_user None new_level (Some g) w).1 =
    (if busy then Raised AttributeError else Done tt) /\
  (promote_user None new_level (Some g) w).2 = w /\
  emitted (promote_user None new_level (Some g)) w = [].
Proof.
  intros busy. pose proof (promote_user_no_member new_level g w) as H.
  simpl in H. fold busy in H. rewrite H. split; [done | split; [done | ]].
  apply emitted_of_trace. rewrite H. simpl. by rewrite app_nil_r.
Qed.

Example promote_user_without_member_sample :
  (promote_user None 1 (Some solaris) initial).1 = Raised AttributeError /\
  (promote_user None 1 (Some (Build_Guild [] [] ∅)) initial).1 = Done tt.
Proof. vm_compute. split; reflexivity. Qed.

(** ** Reactions that do not verify *)

(** A reaction on another message than the verification message, or with
    another emoji than the check mark, changes nothing and raises nothing.
    In particular no reaction verifies anyone as long as the cog has posted
    no verification message. *)
Theorem other_reactions_are_ignored (b : Bot) (p : Payload) (w : World) :
  verification_message_id w <> Some (payload_message_id p) \/
  payload_emoji p <> CHECK_MARK ->
  on_raw_reaction_add b p w = (Done tt, w).
Proof.
  intros H. unfold on_raw_reaction_add. rewrite bind_run.
  unfold read_verification_message_id. simpl.
  case_bool_decide as Hid; simpl; [ | done].
  destruct (String.eqb_spec (payload_emoji p) CHECK_MARK) as [Hemoji | ?]; simpl; [ | done].
  destruct H as [H | H]; [by destruct H | done].
Qed.

Lemma other_reactions_are_ignored_witness :
  (verification_message_id initial <> Some 500 \/
   payload_emoji (check_mark_on 500 42) <> CHECK_MARK) /\
  on_raw_reaction_add client (check_mark_on 500 42) initial = (Done tt, initial).
Proof.
  assert (H : verification_message_id initial <> Some (payload_message_id (check_mark_on 500 42)) \/
              payload_emoji (check_mark_on 500 42) <> CHECK_MARK) by (left; discriminate).
  split; [exact H | ].
  exact (other_reactions_are_ignored client (check_mark_on 500 42) initial H).
Defined.

(** A check mark on the verification message from a guild the client does
    not know (for one, a reaction outside any guild): the listener raises
    [AttributeError] on [guild.get_member], before it reads or writes
    anything. *)
Theorem reaction_in_unknown_guild (b : Bot) (p : Payload) (w : World) :
  verification_message_id w = Some (payload_message_id p) ->
  payload_emoji p = CHECK_MARK ->
  get_guild b (payload_guild_id p) = None ->
  on_raw_reaction_add b p w = (Raised AttributeError, w).
Proof.
  intros Hid Hemoji Hguild. unfold on_raw_reaction_add. rewrite bind_run.
  unfold read_verification_message_id. simpl.
  rewrite Hid. case_bool_decide; [ | done]. simpl.
  rewrite Hemoji, String.eqb_refl. simpl.
  by rewrite Hguild, bind_run.
Qed.

Lemma reaction_in_unknown_guild_witness :
  let p := {| payload_message_id := 500; payload_emoji := CHECK_MARK;
              payload_guild_id := None; payload_user_id := 42 |} in
  let w := world_with 0 0 in
  verification_message_id w = Some (payload_message_id p) /\
  get_guild client (payload_guild_id p) = None /\
  on_raw_reaction_add client p w = (Raised AttributeError, w).
Proof.
  split; [reflexivity | split; [reflexivity | ]].
  exact (reaction_in_unknown_guild client
           {| payload_message_id := 500; payload_emoji := CHECK_MARK;
              payload_guild_id := None; payload_user_id := 42 |}
           (world_with 0 0) eq_refl eq_refl eq_refl).
Defined.

(** A verifying reaction of a user the guild does not list as a member
    ([guild.get_member] gives [None]), stored at level 0: the record is
    committed as [(0, 1)] and that is all.  No role is removed or added and
    nothing is announced; [promote_user] raises [AttributeError] if the
    guild has anything to do for a promotion to level 1.  The level is now
    1, so reacting again does nothing: the roles are never brought in line
    by this path. *)
Theorem verification_without_member (b : Bot) (p : Payload) (w : World) (g : Guild) :
  let user_id := payload_user_id p in
  let w' := (on_raw_reaction_add b p w).2 in
  verification_message_id w = Some (payload_message_id p) ->
  payload_emoji p = CHECK_MARK ->
  get_guild b (payload_guild_id p) = Some g ->
  guild_members g !! user_id = None ->
  (record w user_id).2 = 0 ->
  w' = (update_user_data user_id 0 1 w).2 /\
  record w' user_id = (0, 1) /\
  emitted (on_raw_reaction_add b p) w = [Commit user_id 0 1] /\
  ((on_raw_reaction_add b p w).1 = Raised AttributeError <->
   is_Some (role_for_level g 0) \/ is_Some (role_for_level g 1) \/
   is_Some (utils_get channel_name (guild_text_channels g) "announcements"%string)) /\
  (on_raw_reaction_add b p w').2 = w'.
Proof.
  intros user_id w' Hid Hemoji Hguild Hmember Hlevel.
  assert (Hbot : is_bot (guild_members g !! payload_user_id p) = false).
  { fold user_id. by rewrite Hmember. }
  pose proof (reaction_with_promotion b p w g Hid Hemoji Hguild Hbot Hlevel) as R.
  fold user_id in R. rewrite Hmember, promote_user_no_member in R.
  assert (Hw : w' = (update_user_data user_id 0 1 w).2) by (unfold w'; by rewrite R).
  assert (Hrec : record w' user_id = (0, 1)).
  { rewrite Hw. unfold record, update_user_data. simpl. by rewrite lookup_insert_eq. }
  split; [exact Hw | split; [exact Hrec | split; [ | split]]].
  - apply emitted_of_trace. by rewrite R.
  - rewrite R. cbn [fst]. change (range 0 1) with [0]. cbn [existsb].
    rewrite orb_false_r.
    assert (Hif : forall c : bool,
              (if c then Raised AttributeError else @Done unit tt) = Raised AttributeError
              <-> c = true)
      by (intros []; split; congruence).
    rewrite Hif, !orb_true_iff, !bool_decide_eq_true. tauto.
  - apply reaction_without_promotion. fold user_id. by rewrite Hrec.
Qed.

Lemma verification_without_member_witness :
  let w := world_with 0 0 in
  let w' := (on_raw_reaction_add client stranger_reacts w).2 in
  verification_message_id w = Some 500 /\
  get_guild client (Some 1) = Some solaris /\
  guild_members solaris !! 77 = None /\
  (record w 77).2 = 0 /\
  record w' 77 = (0, 1) /\
  emitted (on_raw_reaction_add client stranger_reacts) w = [Commit 77 0 1] /\
  (on_raw_reaction_add client stranger_reacts w).1 = Raised AttributeError.
Proof.
  destruct (verification_without_member client stranger_reacts (world_with 0 0) solaris
              eq_refl eq_refl eq_refl eq_refl eq_refl) as (_ & H2 & H3 & H4 & _).
  do 4 (split; [reflexivity | ]).
  split; [exact H2 | split; [exact H3 | ]].
  apply H4. left. by exists recruit.
Defined.

(** ** The verification message *)

Section KeepsCog.
Context (P : Effect -> Prop).

Lemma keeps_cog_ret {A} (a : A) : keeps_cog P (ret a).
Proof. intros w. split; [done | ]. exists []. by rewrite app_nil_r. Qed.

Lemma keeps_cog_raise {A} (e : Exn) : keeps_cog P (@raise A e).
Proof. intros w. split; [done | ]. exists []. by rewrite app_nil_r. Qed.

Lemma keeps_cog_emit (e : Effect) : P e -> keeps_cog P (emit e).
Proof. intros He w. split; [done | ]. exists [e]. split; [done | by repeat constructor]. Qed.

Lemma keeps_cog_attr {A B} (o : option A) (f : A -> B) : keeps_cog P (attr o f).
Proof. destruct o; [apply keeps_cog_ret | apply keeps_cog_raise]. Qed.

Lemma keeps_cog_bind {A B} (m : M A) (k : A -> M B) :
  keeps_cog P m -> (forall a, keeps_cog P (k a)) -> keeps_cog P (m ≫= k).
Proof.
  intros Hm Hk w. rewrite bind_run.
  destruct (Hm w) as (V1 & es1 & T1 & F1).
  destruct (m w) as [[a | e] w1]; simpl in *.
  - destruct (Hk a w1) as (V2 & es2 & T2 & F2).
    split; [congruence | ]. exists (es1 ++ es2).
    split; [by rewrite T2, T1, app_assoc | by apply Forall_app].
  - split; [done | by exists es1].
Qed.

Lemma keeps_cog_when (b : bool) (m : M unit) :
  keeps_cog P m -> keeps_cog P (when b m).
Proof. destruct b; [done | intros _; apply keeps_cog_ret]. Qed.

Lemma keeps_cog_for_each {A} (xs : list A) (body : A -> M unit) :
  (forall x, keeps_cog P (body x)) -> keeps_cog P (for_each xs body).
Proof.
  intros Hb. induction xs as [ | x xs IH]; simpl.
  - apply keeps_cog_ret.
  - apply keeps_cog_bind; [apply Hb | intros _; exact IH].
Qed.

Lemma keeps_cog_get_user_data (user_id : Z) : keeps_cog P (get_user_data user_id).
Proof. intros w. split; [done | ]. exists []. by rewrite app_nil_r. Qed.

Lemma keeps_cog_update_user_data (user_id xp level : Z) :
  P (Commit user_id xp level) -> keeps_cog P (update_user_data user_id xp level).
Proof. intros He w. split; [done | ]. eexists. split; [done | by repeat constructor]. Qed.

Lemma keeps_cog_list_index (l : list Z) (i : Z) : keeps_cog P (list_index l i).
Proof. unfold list_index. destruct (py_index l i); [apply keeps_cog_ret | apply keeps_cog_raise]. Qed.

Lemma keeps_cog_read : keeps_cog P read_verification_message_id.
Proof. intros w. split; [done | ]. exists []. by rewrite app_nil_r. Qed.
End KeepsCog.

(** Break a computation of the source into its steps. *)
Ltac keeps_cog_steps_once :=
  first
    [ apply keeps_cog_bind; [ | intros ? ]
    | apply keeps_cog_for_each; intros ?
    | apply keeps_cog_when
    | apply keeps_cog_attr
    | apply keeps_cog_ret
    | apply keeps_cog_get_user_data
    | apply keeps_cog_list_index
    | apply keeps_cog_read
    | apply keeps_cog_update_user_data; exact I
    | apply keeps_cog_emit; exact I
    | match goal with
      | |- keeps_cog _ (match ?o with _ => _ end) => destruct o
      | |- keeps_cog _ (if ?c then _ else _) => destruct c
      | |- keeps_cog _ (let '(_, _) := ?x in _) => destruct x
      end ].

Ltac keeps_cog_steps := repeat keeps_cog_steps_once.

Lemma promote_user_keeps_cog (member : option Member) (new_level : Z)
    (guild : option Guild) :
  keeps_cog never_prompts (promote_user member new_level guild).
Proof. unfold promote_user. keeps_cog_steps. Qed.

Lemma on_message_keeps_cog (msg : Message) :
  keeps_cog never_prompts (on_message msg).
Proof.
  unfold on_message.
  repeat first [ apply promote_user_keeps_cog | progress keeps_cog_steps_once ].
Qed.

Lemma on_raw_reaction_add_keeps_cog (b : Bot) (p : Payload) :
  keeps_cog never_prompts (on_raw_reaction_add b p).
Proof.
  unfold on_raw_reaction_add.
  repeat first [ apply promote_user_keeps_cog | progress keeps_cog_steps_once ].
Qed.

Lemma no_prompt_among (es : list Effect) :
  Forall never_prompts es -> verification_prompts es = [].
Proof.
  induction es as [ | e es IH]; intros H; [done | ].
  apply Forall_cons in H as [He H]. simpl. rewrite (IH H).
  destruct e as [ | | | c [ | | ] | | | ]; done.
Qed.

Lemma verification_prompts_app (es1 es2 : list Effect) :
  verification_prompts (es1 ++ es2) = verification_prompts es1 ++ verification_prompts es2.
Proof. apply flat_map_app. Qed.

(** What a member join does, in full: it never raises. *)
Lemma on_member_join_run (j : JoinEvent) (w : World) :
  let member := join_member j in
  let guild := join_guild j in
  let channel := utils_get channel_name (guild_text_channels guild) "verification"%string in
  let posts := bool_decide (is_Some channel) && not_set (verification_message_id w) in
  on_member_join j w =
  (Done tt,
   {| db := <[member_id member := (0, 0)]> (db w);
      verification_message_id :=
        if posts then Some (join_message_id j) else verification_message_id w;
      trace :=
        trace w
        ++ match role_for_level guild 0 with
           | Some r => [AddRoles (member_id member) r]
           | None => []
           end
        ++ [Commit (member_id member) 0 0]
        ++ (if join_dm_open j then [MemberSend (member_id member) WelcomeDirective] else [])
        ++ match channel with
           | Some c =>
               if posts
               then [ChannelSend c VerificationPrompt;
                     AddReaction (join_message_id j) CHECK_MARK]
               else []
           | None => []
           end |}).
Proof.
  intros member guild channel posts. unfold posts, channel, guild, member.
  unfold on_member_join, role_for_level. rewrite bind_run. unfold dict_index.
  rewrite recruit_role_name. cbn [ret]. rewrite bind_run.
  destruct w as [d v t].
  destruct (utils_get role_name (guild_roles (join_guild j)) _) as [r | ];
    destruct (join_dm_open j);
    destruct (utils_get channel_name (guild_text_channels (join_guild j)) _) as [c | ];
    repeat first [ rewrite bind_run
                 | progress unfold read_verification_message_id
                 | progress cbn ];
    destruct (not_set v);
    repeat first [ rewrite bind_run | progress cbn ];
    rewrite <- ?app_assoc; cbn; rewrite ?app_nil_r; reflexivity.
Qed.

(** Each listener taken on its own: a message listener and a reaction
    listener never set [verification_message_id] and never post the
    verification prompt, and a join listener that finds an id other than 0
    stored does neither too.  Only a join that finds no id posts the
    prompt. *)
Theorem prompt_needs_an_unset_cog (ev : Event) (w : World) :
  match ev with
  | MemberJoin _ => not_set (verification_message_id w) = false
  | _ => True
  end ->
  verification_message_id (handle ev w).2 = verification_message_id w /\
  verification_prompts (emitted (handle ev) w) = [].
Proof.
  intros Hset. destruct ev as [j | b p | msg]; cbn [handle].
  - pose proof (on_member_join_run j w) as Hrun. cbn zeta in Hrun.
    rewrite Hset, andb_false_r in Hrun.
    split; [by rewrite Hrun | ].
    rewrite (emitted_of_trace _ _ _ (f_equal trace (f_equal snd Hrun))).
    rewrite !verification_prompts_app.
    destruct (role_for_level (join_guild j) 0), (join_dm_open j),
      (utils_get channel_name (guild_text_channels (join_guild j)) "verification"%string);
      reflexivity.
  - destruct (on_raw_reaction_add_keeps_cog b p w) as (V & es & T & F).
    split; [exact V | ].
    by rewrite (emitted_of_trace _ _ _ T), (no_prompt_among es F).
  - destruct (on_message_keeps_cog msg w) as (V & es & T & F).
    split; [exact V | ].
    by rewrite (emitted_of_trace _ _ _ T), (no_prompt_among es F).
Qed.

Lemma prompt_needs_an_unset_cog_witness :
  let w := step initial (MemberJoin alice_joins) in
  verification_message_id w = Some 500 /\
  not_set (verification_message_id w) = false /\
  verification_message_id (on_member_join alice_joins w).2 = Some 500 /\
  verification_prompts (emitted (on_member_join alice_joins) w) = [] /\
  verification_prompts (emitted (on_message (message_of alice)) w) = [].
Proof.
  split; [reflexivity | split; [reflexivity | ]].
  destruct (prompt_needs_an_unset_cog (MemberJoin alice_joins)
              (step initial (MemberJoin alice_joins)) eq_refl) as [H1 H2].
  split; [exact H1 | split; [exact H2 | ]].
  exact (proj2 (prompt_needs_an_unset_cog (MessageCreate (message_of alice))
                  (step initial (MemberJoin alice_joins)) I)).
Defined.

(** The first join in a guild with a verification channel, while the cog
    holds no message id, posts the prompt once and remembers its id; the
    member is stored at [(0, 0)].  A check mark of that member on that
    message, from a guild the client knows and an account that is not a
    bot, then stores [(0, 1)]. *)
Theorem join_then_verify (j : JoinEvent) (b : Bot) (p : Payload) (w : World)
    (c : Channel) (g : Guild) :
  let user_id := member_id (join_member j) in
  let w1 := step w (MemberJoin j) in
  let w2 := step w1 (RawReactionAdd b p) in
  not_set (verification_message_id w) = true ->
  utils_get channel_name (guild_text_channels (join_guild j)) "verification"%string = Some c ->
  payload_message_id p = join_message_id j ->
  payload_emoji p = CHECK_MARK ->
  payload_user_id p = user_id ->
  get_guild b (payload_guild_id p) = Some g ->
  is_bot (guild_members g !! user_id) = false ->
  (on_member_join j w).1 = Done tt /\
  verification_message_id w1 = Some (join_message_id j) /\
  verification_prompts (emitted (on_member_join j) w) = [c] /\
  record w1 user_id = (0, 0) /\
  record w2 user_id = (0, 1).
Proof.
  intros user_id w1 w2 Hunset Hchannel Hmsg Hemoji Huser Hguild Hbot.
  pose proof (on_member_join_run j w) as Hrun. simpl in Hrun.
  rewrite Hchannel, Hunset in Hrun. simpl in Hrun.
  assert (Hw1 : w1 = (on_member_join j w).2) by reflexivity.
  assert (Hvid : verification_message_id w1 = Some (join_message_id j))
    by (by rewrite Hw1, Hrun).
  assert (Hrec1 : record w1 user_id = (0, 0)).
  { rewrite Hw1, Hrun. unfold record. simpl. by rewrite lookup_insert_eq. }
  split; [by rewrite Hrun | split; [exact Hvid | split; [ | split; [exact Hrec1 | ]]]].
  - rewrite (emitted_of_trace _ _ _ (f_equal trace (f_equal snd Hrun))).
    rewrite !verification_prompts_app.
    destruct (role_for_level (join_guild j) 0), (join_dm_open j); reflexivity.
  - assert (Hzero : (record w1 (payload_user_id p)).2 = 0) by (by rewrite Huser, Hrec1).
    assert (Hid : verification_message_id w1 = Some (payload_message_id p))
      by (by rewrite Hmsg).
    assert (Hbot' : is_bot (guild_members g !! payload_user_id p) = false)
      by (by rewrite Huser).
    unfold w2, step. simpl.
    destruct (reaction_db b p w1) as [E | [_ Hdb]].
    + exfalso.
      rewrite (reaction_with_promotion b p w1 g Hid Hemoji Hguild Hbot' Hzero) in E.
      match type of E with
      | (promote_user ?a ?b ?c ?w0).2 = _ =>
          destruct (promote_user_only_emits a b c w0) as (es & E' & _)
      end.
      rewrite E' in E. apply (f_equal trace) in E. simpl in E.
      apply (f_equal length) in E. rewrite !length_app in E. simpl in E. lia.
    + unfold record. rewrite Hdb, Huser. by rewrite lookup_insert_eq.
Qed.

Lemma join_then_verify_witness :
  let w1 := step initial (MemberJoin alice_joins) in
  let w2 := step w1 (RawReactionAdd client (check_mark_on 500 42)) in
  not_set (verification_message_id initial) = true /\
  verification_message_id w1 = Some 500 /\
  verification_prompts (emitted (on_member_join alice_joins) initial) = [verification_channel] /\
  record w1 42 = (0, 0) /\
  record w2 42 = (0, 1).
Proof.
  split; [reflexivity | ].
  exact (proj2 (join_then_verify alice_joins client (check_mark_on 500 42) initial
                  verification_channel solaris
                  eq_refl eq_refl eq_refl eq_refl eq_refl eq_refl eq_refl)).
Defined.

(** ** The order and the result of the role calls *)

(** The calls of [promote_user] come in a fixed order: the removals, then
    at most one addition, then at most one announcement.  Every role call
    is for the member promoted, and the addition, if there is one, is the
    guild's role for the target level. *)
Theorem promote_user_call_order (m : Member) (g : Guild) (target : Z) (w : World) :
  let es := emitted (promote_user (Some m) target (Some g)) w in
  exists removed added announced,
    es = (RemoveRoles (member_id m) <$> removed)
         ++ (AddRoles (member_id m) <$> added)
         ++ ((fun c => ChannelSend c (PromotionAlert (member_id m) (CLEARANCE_ROLES !! target)))
             <$> announced) /\
    added = option_list (role_for_level g target) /\
    announced = option_list (utils_get channel_name (guild_text_channels g)
                                       "announcements"%string) /\
    removed = removed_roles es.
Proof.
  intros es. unfold es. rewrite promote_user_emitted.
  exists (removed_roles (promote_effects m target g)),
         (option_list (role_for_level g target)),
         (option_list (utils_get channel_name (guild_text_channels g) "announcements"%string)).
  split; [ | done].
  rewrite promote_effects_removed. unfold promote_effects.
  f_equal; [ | f_equal].
  - induction (range 0 target) as [ | l ls IH]; [done | ]. simpl.
    rewrite removed_roles_app, fmap_app, <- IH.
    by destruct (removal_at_cases m g l) as [(r & _ & _ & ->) | ->].
  - unfold addition_at. by destruct (role_for_level g target).
  - unfold announcement_at. by destruct (utils_get _ _ _).
Qed.

Lemma promote_user_call_order_witness :
  let holder := with_roles alice [recruit; initiate; agent] in
  emitted (promote_user (Some holder) 2 (Some solaris)) initial =
  [RemoveRoles 42 recruit; RemoveRoles 42 initiate; AddRoles 42 asset;
   ChannelSend announcements_channel (PromotionAlert 42 (CLEARANCE_ROLES !! 2))].
Proof.
  destruct (promote_user_call_order (with_roles alice [recruit; initiate; agent])
              solaris 2 initial) as (removed & added & announced & E & -> & -> & ->).
  exact E.
Defined.

(** In a guild whose roles have distinct ids, once the platform has applied
    the calls of [promote_user] the member holds the guild's role for the
    target level, if the guild has one, and holds the guild's role for no
    level below it.  Every other role the member held is still held. *)
Theorem promote_user_result (m : Member) (g : Guild) (target : Z) (w : World) :
  let es := emitted (promote_user (Some m) target (Some g)) w in
  let after := apply_role_calls es (member_roles m) in
  NoDup (role_id <$> guild_roles g) ->
  (forall r, role_for_level g target = Some r -> role_in r after = true) /\
  (forall level r, 0 <= level < target -> role_for_level g level = Some r ->
     role_in r after = false) /\
  (forall x, In x (member_roles m) ->
     (forall level r, 0 <= level < target -> role_for_level g level = Some r ->
        role_eqb r x = false) ->
     In x after).
Proof.
  intros es after Hids. unfold after, es. rewrite promote_user_emitted.
  pose proof (roles_after_promotion m g target) as Hafter. simpl in Hafter.
  rewrite Hafter. clear Hafter.
  set (kept := apply_role_calls (flat_map (removal_at m g) (range 0 target)) (member_roles m)).
  split; [ | split].
  - intros r Hr. rewrite Hr. destruct (role_in r kept) eqn:E; [done | ].
    rewrite role_in_app. simpl. by rewrite role_eqb_refl, orb_true_r.
  - intros level r Hl Hr.
    assert (Hkept : role_in r kept = false).
    { eapply not_held_after_removals; [by apply in_range | done]. }
    destruct (role_for_level g target) as [rt | ] eqn:Ht; [ | done].
    destruct (role_in rt kept); [done | ].
    rewrite role_in_app, Hkept. simpl. rewrite orb_false_r.
    destruct (role_eqb r rt) eqn:Heq; [ | done]. exfalso.
    apply Z.eqb_eq in Heq.
    assert (r = rt).
    { apply (distinct_ids (guild_roles g)); [done | | | done].
      - by apply role_for_level_found in Hr as [_ ?].
      - by apply role_for_level_found in Ht as [_ ?]. }
    subst rt. pose proof (role_for_level_injective g level target r Hr Ht). lia.
  - intros x Hx Hother.
    assert (Hkept : In x kept).
    { apply in_after_removals. split; [done | ].
      intros r Hr. apply in_removals in Hr as (_ & level & Hl & Hr).
      apply (Hother level r); [by apply in_range | done]. }
    destruct (role_for_level g target) as [rt | ]; [ | done].
    destruct (role_in rt kept); [done | ]. apply in_app_iff. by left.
Qed.

Lemma promote_user_result_witness :
  let holder := with_roles alice [recruit; agent] in
  let es := emitted (promote_user (Some holder) 2 (Some solaris)) initial in
  let after := apply_role_calls es (member_roles holder) in
  NoDup (role_id <$> guild_roles solaris) /\
  role_in asset after = true /\
  role_in recruit after = false /\
  In agent after.
Proof.
  assert (Hids : NoDup (role_id <$> guild_roles solaris)).
  { vm_compute. repeat (apply NoDup_cons; split; [ | ]); try apply NoDup_nil_2;
      rewrite ?list_elem_of_In; simpl; intuition congruence. }
  destruct (promote_user_result (with_roles alice [recruit; agent]) solaris 2 initial Hids)
    as (H1 & H2 & H3).
  split; [exact Hids | split; [ | split]].
  - apply H1. reflexivity.
  - apply (H2 0); [lia | reflexivity].
  - apply H3; [simpl; tauto | ].
    intros level r Hl Hr.
    assert (level = 0 \/ level = 1) as [-> | ->] by lia;
      vm_compute in Hr; inversion Hr; reflexivity.
Defined.

(** ** The dossier *)

Lemma clearance_role_in_table (level : Z) :
  is_Some (CLEARANCE_ROLES !! level) <-> 0 <= level <= MAX_LEVEL.
Proof.
  split.
  - intros [name H]. by apply clearance_role_cases in H as [? _].
  - intros H. by_level level H; by eexists.
Qed.

Lemma clearance_role_not_unknown (level : Z) (name : string) :
  CLEARANCE_ROLES !! level = Some name -> name <> "Unknown"%string.
Proof.
  intros H. apply elem_of_list_to_map_2 in H.
  repeat (apply elem_of_cons in H as [H | H]; [inversion H; subst; discriminate | ]).
  by apply elem_of_nil in H.
Qed.

Lemma dossier_run (i : Interaction) (user : option Account) (w : World) :
  let target := default (interaction_user i) user in
  let points := (record w (account_id target)).1 in
  let level := (record w (account_id target)).2 in
  exists r,
    dossier i user w = (Done r, w) /\
    field_of r "Clearance Level"%string = Some ("CL-" +:+ pretty level)%string /\
    field_of r "Rank"%string = Some (default "Unknown"%string (CLEARANCE_ROLES !! level)) /\
    field_of r "XP"%string = Some (pretty points) /\
    embed_title (response_embed r) = ("Dossier: " +:+ account_display_name target)%string /\
    response_ephemeral r = bool_decide (is_Some (interaction_guild i)).
Proof.
  intros target points level. unfold dossier. rewrite bind_run.
  unfold get_user_data. cbn [fst snd].
  assert (Htarget : match user with
                    | Some u => u
                    | None => interaction_user i
                    end = target) by (unfold target; by destruct user).
  rewrite Htarget. unfold points, level, record.
  destruct (default (0, 0) (db w !! account_id target)) as [xp lvl].
  eexists. split; [reflexivity | ]. repeat split.
Qed.

(** The dossier command only reads: it never raises and leaves the table,
    the cog and the trace as they are.  It reports on the user given, or on
    the user who asked when none is given.  The fields show the stored
    points and level (zero for a user without a row); the rank is the role
    name of the level when the level is in the table and ["Unknown"]
    otherwise; the answer is ephemeral exactly when asked in a guild. *)
Theorem dossier_shows_the_record (i : Interaction) (user : option Account) (w : World) :
  let target := default (interaction_user i) user in
  let points := (record w (account_id target)).1 in
  let level := (record w (account_id target)).2 in
  exists r,
    dossier i user w = (Done r, w) /\
    field_of r "Clearance Level"%string = Some ("CL-" +:+ pretty level)%string /\
    field_of r "XP"%string = Some (pretty points) /\
    (0 <= level <= MAX_LEVEL -> field_of r "Rank"%string = CLEARANCE_ROLES !! level) /\
    (~ 0 <= level <= MAX_LEVEL -> field_of r "Rank"%string = Some "Unknown"%string) /\
    (db w !! account_id target = None ->
       field_of r "Clearance Level"%string = Some "CL-0"%string /\
       field_of r "Rank"%string = Some "CL-0: Recruit"%string /\
       field_of r "XP"%string = Some "0"%string) /\
    (response_ephemeral r = true <-> is_Some (interaction_guild i)).
Proof.
  intros target points level.
  destruct (dossier_run i user w) as (r & Hrun & Hcl & Hrank & Hxp & _ & Heph).
  fold target in Hcl, Hrank, Hxp. fold points in Hxp. fold level in Hcl, Hrank.
  exists r. split; [exact Hrun | split; [exact Hcl | split; [exact Hxp | ]]].
  split; [ | split; [ | split]].
  - intros Hin. apply clearance_role_in_table in Hin as [name Hname].
    by rewrite Hrank, Hname.
  - intros Hout. rewrite Hrank.
    destruct (CLEARANCE_ROLES !! level) as [name | ] eqn:E; [ | done].
    exfalso. apply Hout, clearance_role_in_table. eauto.
  - intros Hnone. unfold points, level, record in *. rewrite Hnone in *.
    simpl in *. by rewrite Hcl, Hrank, Hxp.
  - rewrite Heph. apply bool_decide_eq_true.
Qed.

Lemma dossier_shows_the_record_witness :
  let w := world_with 300 2 in
  exists r,
    dossier (in_solaris alice_account) None w = (Done r, w) /\
    field_of r "Clearance Level"%string = Some "CL-2"%string /\
    field_of r "XP"%string = Some "300"%string /\
    field_of r "Rank"%string = Some "CL-2: Asset"%string.
Proof.
  destruct (dossier_shows_the_record (in_solaris alice_account) None (world_with 300 2))
    as (r & H1 & H2 & H3 & H4 & _).
  exists r. split; [exact H1 | split; [exact H2 | split; [exact H3 | ]]].
  apply H4. split; vm_compute; discriminate.
Defined.

(** Starting from the empty table, whatever events the listeners have
    processed, the dossier of any user shows a level of the table together
    with the role name of that very level; the rank is never ["Unknown"]. *)
Theorem dossier_after_events (evs : list Event) (i : Interaction) (user : option Account) :
  let w := run evs initial in
  exists r level name,
    dossier i user w = (Done r, w) /\
    0 <= level <= MAX_LEVEL /\
    CLEARANCE_ROLES !! level = Some name /\
    field_of r "Clearance Level"%string = Some ("CL-" +:+ pretty level)%string /\
    field_of r "Rank"%string = Some name /\
    name <> "Unknown"%string.
Proof.
  intros w.
  destruct (dossier_run i user w) as (r & Hrun & Hcl & Hrank & _).
  set (target := default (interaction_user i) user) in *.
  pose proof (run_settled evs initial initial_settled (account_id target)) as Hs.
  apply settled_bounds in Hs as (_ & Hlevel & _). fold w in Hlevel.
  destruct (proj2 (clearance_role_in_table _) Hlevel) as [name Hname].
  exists r, (record w (account_id target)).2, name.
  split; [exact Hrun | split; [exact Hlevel | split; [exact Hname | ]]].
  split; [exact Hcl | split; [by rewrite Hrank, Hname | ]].
  by eapply clearance_role_not_unknown.
Qed.

Example dossier_unknown_rank :
  exists r,
    dossier (in_solaris alice_account) None (world_with 7000 11) = (Done r, world_with 7000 11) /\
    field_of r "Clearance Level"%string = Some "CL-11"%string /\
    field_of r "Rank"%string = Some "Unknown"%string.
Proof. eexists. vm_compute. repeat split. Qed.

(** ** Announcements *)

Lemma promotions_announced_app (user_id : Z) (es1 es2 : list Effect) :
  promotions_announced user_id (es1 ++ es2) =
  promotions_announced user_id es1 ++ promotions_announced user_id es2.
Proof. apply flat_map_app. Qed.

Lemma promote_effects_announced (user_id : Z) (m : Member) (target : Z) (g : Guild) :
  promotions_announced user_id (promote_effects m target g) =
  match utils_get channel_name (guild_text_channels g) "announcements"%string with
  | Some _ => if member_id m =? user_id then [CLEARANCE_ROLES !! target] else []
  | None => []
  end.
Proof.
  unfold promote_effects. rewrite !promotions_announced_app.
  assert (Hrem : promotions_announced user_id (flat_map (removal_at m g) (range 0 target)) = []).
  { induction (range 0 target) as [ | l ls IH]; [done | ]. simpl.
    rewrite promotions_announced_app, IH.
    by destruct (removal_at_cases m g l) as [(r & _ & _ & ->) | ->]. }
  rewrite Hrem. unfold addition_at, announcement_at.
  destruct (role_for_level g target);
    destruct (utils_get channel_name (guild_text_channels g) "announcements"%string);
    simpl; by rewrite ?app_nil_r.
Qed.

(** The trace of a message in a guild, from an account that is not a bot. *)
Lemma on_message_guild_trace (msg : Message) (w : World) (g : Guild) :
  let user_id := member_id (message_author msg) in
  let xp := (record w user_id).1 + 1 in
  let level := (record w user_id).2 in
  let level' := level_after xp level in
  member_bot (message_author msg) = false ->
  message_guild msg = Some g ->
  trace (on_message msg w).2 =
  trace w
  ++ Commit user_id xp level
  :: (if level' =? level then []
      else Commit user_id xp level' :: promote_effects (message_author msg) level' g)
  ++ (if level <? -12 then [] else [ProcessCommands user_id]).
Proof.
  intros user_id xp level level' Hbot Hguild.
  unfold level', xp, level, user_id, record, on_message, level_after.
  rewrite Hbot, bind_run. unfold get_user_data. simpl.
  destruct (default (0, 0) (db w !! member_id (message_author msg))) as [xp0 lvl].
  simpl. rewrite bind_run. unfold update_user_data at 1. simpl.
  destruct (lvl <? 10) eqn:Hlt; simpl.
  - rewrite !bind_run. unfold list_index.
    destruct (py_index XP_THRESHOLDS (lvl + 1)) as [t | ] eqn:E; simpl.
    + assert (Hs : is_Some (py_index XP_THRESHOLDS (lvl + 1))) by eauto.
      apply py_index_thresholds in Hs.
      replace (lvl <? -12) with false by lia.
      destruct (xp0 + 1 >=? t); simpl.
      * replace (lvl + 1 =? lvl) with false by lia.
        rewrite bind_run. unfold update_user_data at 1. simpl.
        rewrite Hguild, promote_user_run. simpl.
        rewrite <- ?app_assoc; simpl; rewrite ?app_nil_r; reflexivity.
      * rewrite Z.eqb_refl. rewrite <- ?app_assoc; simpl; rewrite ?app_nil_r; reflexivity.
    + assert (Hn : ~ is_Some (py_index XP_THRESHOLDS (lvl + 1)))
        by (rewrite E; by intros [? ?]).
      rewrite py_index_thresholds in Hn.
      replace (lvl <? -12) with true by lia.
      rewrite Z.eqb_refl. rewrite <- ?app_assoc; simpl; rewrite ?app_nil_r; reflexivity.
  - replace (lvl <? -12) with false by lia.
    rewrite Z.eqb_refl. rewrite <- ?app_assoc; simpl; rewrite ?app_nil_r; reflexivity.
Qed.

Lemma message_announces_level_gain (msg : Message) (w : World) (user_id : Z) :
  announced_in_guild msg ->
  Z.of_nat (length (promotions_announced user_id (emitted (on_message msg) w))) =
  (record (on_message msg w).2 user_id).2 - (record w user_id).2.
Proof.
  intros (g & c & Hguild & Hchannel).
  rewrite on_message_record.
  destruct (member_bot (message_author msg)) eqn:Hbot; simpl.
  - unfold emitted. rewrite on_message_bot by done. simpl.
    rewrite drop_all. simpl. lia.
  - rewrite (emitted_of_trace _ _ _ (on_message_guild_trace msg w g Hbot Hguild)).
    simpl. rewrite !promotions_announced_app.
    assert (Hlast : promotions_announced user_id
                      (if (record w (member_id (message_author msg))).2 <? -12
                       then [] else [ProcessCommands (member_id (message_author msg))]) = [])
      by (by destruct (_ <? -12)).
    rewrite Hlast, app_nil_r.
    pose proof (level_after_bounds ((record w (member_id (message_author msg))).1 + 1)
                  (record w (member_id (message_author msg))).2) as Hb.
    case_bool_decide as Hu.
    + subst user_id. simpl.
      destruct (Z.eqb_spec (level_after ((record w (member_id (message_author msg))).1 + 1)
                              (record w (member_id (message_author msg))).2)
                           (record w (member_id (message_author msg))).2) as [E | E].
      * simpl. lia.
      * simpl. rewrite promote_effects_announced, Hchannel, Z.eqb_refl. simpl. lia.
    + destruct (_ =? _); simpl; [lia | ].
      rewrite promote_effects_announced, Hchannel.
      replace (member_id (message_author msg) =? user_id) with false by lia.
      simpl. lia.
Qed.

(** Along any sequence of messages written in guilds that have the
    announcements channel, a member gets exactly one promotion alert for
    each level it gains: the number of its alerts grows by the number of
    levels gained.  Messages that bring no promotion, messages of other
    members and messages of bots add no alert for it. *)
Theorem one_alert_per_level_gained (msgs : list Message) (w : World) (user_id : Z) :
  (forall msg, In msg msgs -> announced_in_guild msg) ->
  let w' := run (MessageCreate <$> msgs) w in
  Z.of_nat (length (promotions_announced user_id (trace w'))) =
  Z.of_nat (length (promotions_announced user_id (trace w)))
  + ((record w' user_id).2 - (record w user_id).2).
Proof.
  revert w. induction msgs as [ | msg msgs IH]; intros w Hall w'; [unfold w'; simpl; lia | ].
  unfold w'.
  change (run (MessageCreate <$> msg :: msgs) w)
    with (run (MessageCreate <$> msgs) (step w (MessageCreate msg))).
  set (w1 := step w (MessageCreate msg)).
  rewrite (IH w1) by (intros ? ?; apply Hall; by right).
  assert (Htrace : trace w1 = trace w ++ emitted (on_message msg) w)
    by apply on_message_emitted.
  pose proof (message_announces_level_gain msg w user_id (Hall msg (or_introl eq_refl)))
    as Hgain.
  change ((on_message msg w).2) with w1 in Hgain.
  rewrite Htrace, promotions_announced_app, length_app, Nat2Z.inj_add. lia.
Qed.

Lemma one_alert_per_level_gained_witness :
  let msgs := [message_of alice; message_of bob; message_of robot; message_of alice] in
  let w := world_with 99 0 in
  let w' := run (MessageCreate <$> msgs) w in
  (forall msg, In msg msgs -> announced_in_guild msg) /\
  record w' 42 = (101, 1) /\
  Z.of_nat (length (promotions_announced 42 (trace w'))) = 1.
Proof.
  assert (Hall : forall msg,
            In msg [message_of alice; message_of bob; message_of robot; message_of alice] ->
            announced_in_guild msg).
  { intros msg Hin. exists solaris, announcements_channel.
    destruct Hin as [<- | [<- | [<- | [<- | []]]]]; by split. }
  split; [exact Hall | split; [reflexivity | ]].
  exact (one_alert_per_level_gained
           [message_of alice; message_of bob; message_of robot; message_of alice]
           (world_with 99 0) 42 Hall).
Defined.

(** ** Crossing a threshold *)



